(** * gogetcrawl: the Common Crawl fetch-and-decode pipeline

    A shallow embedding of [common/common.go] and
    [commoncrawl/commoncrawl.go], and the properties of the retrying
    client, the page decoder, the two orchestrators, the snapshot filter,
    the range arithmetic and the query-string builder.

    Conventions of the embedding.
    - Go [int] is the 64-bit two's-complement integer: a [Z] with the
      wrap-around written out ([wrap_int]) where a value read from the
      input is computed on; the [uint] field [Limit] is an [N].
    - [[]byte] is [list byte]; a nil slice and an empty slice are both [[]]
      (the modelled code only ever takes [len] of them), except for the
      fasthttp body, which the code compares with nil.
    - A Go [error] is its message; a nil error is [None].  A Go result pair
      [(v, err)] is a pair [(v, option error)].
    - Everything outside the repository (the HTTP clients, the JSON
      decoder, the WARC reader, the time formatter, the user-agent
      generator) is a field of the class [Externals].
    - Effects are threaded through a state-and-panic monad [M]: the state
      holds the outside world and the trace of observable events (HTTP
      attempts, sleeps, requests, channel sends).  [log.Printf] calls are
      left out: they change neither results nor control flow. *)

From Stdlib Require Import ZArith List String Ascii Strings.Byte Bool Lia DecimalString.
From Stdlib Require DecimalZ DecimalPos.
Import ListNotations.
Local Open Scope string_scope.
Local Open Scope Z_scope.
Local Open Scope list_scope.

Local Infix "+++" := String.append (right associativity, at level 60).

(** ** Data model *)

(** A Go error value, identified with the text of its [Error()]. *)
Definition error := string.

(** [time.Time] without a monotonic reading (the dates come from parsing):
    seconds and nanoseconds since January 1, year 1, 00:00:00 UTC. *)
Record Time := mkTime { sec : Z; nsec : Z }.

Definition zeroTime : Time := mkTime 0 0.

Definition IsZero (t : Time) : bool := (sec t =? 0) && (nsec t =? 0).

Definition After (t u : Time) : bool :=
  (sec t >? sec u) || ((sec t =? sec u) && (nsec t >? nsec u)).

Definition Before (t u : Time) : bool :=
  (sec t <? sec u) || ((sec t =? sec u) && (nsec t <? nsec u)).

(** [latestIndex]: one entry of collinfo.json. *)
Record latestIndex := mkIndex {
  Id : string;
  Name : string;
  Timegate : string;
  CdxAPI : string;
  From : Time;
  To : Time
}.

(** [CommonCrawl]: the provider. *)
Record CommonCrawl := mkCommonCrawl {
  MaxTimeout : Z;
  MaxRetries : Z;
  indexes : list latestIndex
}.

(** The [Source] interface has one implementation here; a value of the
    interface is the provider it points to. *)
Inductive SourceRef := CommonCrawlSource (cc : CommonCrawl).

(** [CdxResponse]; [Source] is nil ([None]) in a zero record. *)
Record CdxResponse := mkCdx {
  Urlkey : string;
  Timestamp : string;
  Charset : string;
  MimeType : string;
  Languages : string;
  MimeDetected : string;
  Digest : string;
  Offset : string;
  Original : string;
  Length : string;
  StatusCode : string;
  Filename : string;
  Source : option SourceRef
}.

Definition setSource (r : CdxResponse) (s : option SourceRef) : CdxResponse :=
  mkCdx (Urlkey r) (Timestamp r) (Charset r) (MimeType r) (Languages r)
        (MimeDetected r) (Digest r) (Offset r) (Original r) (Length r)
        (StatusCode r) (Filename r) s.

Record numPagesResponse := mkNumPages { Pages : Z; PageSize : Z; Blocks : Z }.

Record RequestConfig := mkConfig {
  URL : string;
  Filters : list string;
  Limit : N;
  CollapseColumn : string;
  SinglePage : bool;
  FromDate : Time;
  ToDate : Time
}.

(** ** Machine integers and their decimal text *)

Definition intSize : Z := 64.
Definition maxInt : Z := 2 ^ (intSize - 1) - 1.
Definition minInt : Z := - 2 ^ (intSize - 1).

(** The value an [int] computation leaves after overflow. *)
Definition wrap_int (z : Z) : Z :=
  (z + 2 ^ (intSize - 1)) mod 2 ^ intSize - 2 ^ (intSize - 1).

(** What [%v] prints for an integer. *)
Definition FormatInt (z : Z) : string := NilZero.string_of_int (Z.to_int z).

Definition is_digit (c : ascii) : bool :=
  let n := N_of_ascii c in ((48 <=? n) && (n <=? 57))%N.

Definition digit_value (c : ascii) : Z := Z.of_N (N_of_ascii c) - 48.

Fixpoint all_digits (s : string) : bool :=
  match s with
  | EmptyString => true
  | String c r => is_digit c && all_digits r
  end.

Fixpoint digits_value (acc : Z) (s : string) : Z :=
  match s with
  | EmptyString => acc
  | String c r => digits_value (acc * 10 + digit_value c) r
  end.

(** The two errors of [strconv]. *)
Inductive NumError := ErrSyntax | ErrRange.

Definition maxUint64 : Z := 2 ^ 64 - 1.

(** The digit loop of [strconv.ParseUint(s, 10, 0)], [n] being the value
    read so far: a byte that is no digit is a syntax error, a value that
    leaves [uint64] is a range error as soon as it does. *)
Fixpoint ParseUint_digits (s : string) (n : Z) : Z * option NumError :=
  match s with
  | EmptyString => (n, None)
  | String c r =>
    if is_digit c then
      if n >=? maxUint64 / 10 + 1 then (maxUint64, Some ErrRange)
      else
        let n1 := n * 10 + digit_value c in
        if n1 >? maxUint64 then (maxUint64, Some ErrRange)
        else ParseUint_digits r n1
    else (0, Some ErrSyntax)
  end.

Definition ParseUint (s : string) : Z * option NumError :=
  match s with
  | EmptyString => (0, Some ErrSyntax)
  | _ => ParseUint_digits s 0
  end.

(** [strconv.ParseInt(s, 10, 0)]: an optional sign, then [ParseUint]; a
    magnitude that does not fit is replaced by the nearest bound. *)
Definition ParseInt (s : string) : Z * option NumError :=
  match s with
  | EmptyString => (0, Some ErrSyntax)
  | String c r =>
    let neg := Ascii.eqb c "-" in
    let digits := if Ascii.eqb c "+" then r else if neg then r else s in
    let (un, err) := ParseUint digits in
    match err with
    | Some ErrSyntax => (0, Some ErrSyntax)
    | _ =>
      let cutoff := 2 ^ (intSize - 1) in
      if negb neg && (un >=? cutoff) then (cutoff - 1, Some ErrRange)
      else if neg && (un >? cutoff) then (- cutoff, Some ErrRange)
      else (if neg then - un else un, None)
    end
  end.

(** [strconv.Atoi]; its fast path for short strings gives what
    [ParseInt] gives. *)
Definition Atoi (s : string) : Z * option NumError := ParseInt s.

(** ** Responses of the two HTTP clients *)

(** [http.Response]: the status and what [io.ReadAll(resp.Body)] gives. *)
Record Response := mkResponse {
  RespStatus : Z;
  RespBody : list byte * option error
}.

(** [fasthttp.Response]; a nil body is [None]. *)
Record FastResponse := mkFastResponse {
  FastStatus : Z;
  FastBody : option (list byte)
}.

(** ** The outside world *)

Class Externals := {
  World : Type;
  (** [http.Client.Get] with the given timeout in seconds. *)
  http_client_Get : string -> Z -> World -> (option Response * option error) * World;
  (** [uarand.GetRandom]. *)
  uarand_GetRandom : World -> string * World;
  (** [fasthttp.Client.DoTimeout] on a GET request with these headers. *)
  fasthttp_DoTimeout :
    string -> list (string * string) -> Z -> World -> (FastResponse * option error) * World;
  (** [jsoniter.Unmarshal] into a zero [CdxResponse]. *)
  Unmarshal_Cdx : list byte -> error + CdxResponse;
  (** [jsoniter.Unmarshal] into a zero [numPagesResponse]. *)
  Unmarshal_NumPages : list byte -> error + numPagesResponse;
  (** [Time.Format("20060102")]. *)
  Format_20060102 : Time -> string;
  (** [warc.NewReader], [ReadRecord] and [io.ReadAll(record.Content)]. *)
  WarcReader : Type;
  WarcRecord : Type;
  warc_NewReader : list byte -> error + WarcReader;
  warc_ReadRecord : WarcReader -> error + WarcRecord;
  warc_ReadContent : WarcRecord -> list byte * option error
}.

(** ** Effects: events, state, and the monad *)

Inductive Event :=
| EvHttpGet (url : string) (timeout : Z)
| EvSleep (seconds : Z)
| EvDoRequest (url : string) (headers : list (string * string)) (timeout : Z)
| EvSendResults (batch : list CdxResponse)
| EvSendError (e : error).

Inductive outcome (A : Type) :=
| Ret (a : A)
| Panic (msg : string).
Arguments Ret {A} a.
Arguments Panic {A} msg.

Definition nil_dereference : string :=
  "runtime error: invalid memory address or nil pointer dereference".
(** The only index expression of the code is [cc.indexes[0]]; it panics
    on the empty catalog. *)
Definition index_out_of_range : string :=
  "runtime error: index out of range [0] with length 0".
Definition slice_out_of_range : string := "runtime error: slice bounds out of range".

Section Pipeline.
Context {ext : Externals}.

Record State := mkState { world : World; trace : list Event }.

(** A computation either returns a value or panics; the state it leaves
    is kept in both cases. *)
Definition M (A : Type) : Type := State -> outcome A * State.

Definition ret {A} (a : A) : M A := fun st => (Ret a, st).

Definition bind {A B} (m : M A) (k : A -> M B) : M B :=
  fun st =>
    match m st with
    | (Ret a, st') => k a st'
    | (Panic msg, st') => (Panic msg, st')
    end.

Definition panic {A} (msg : string) : M A := fun st => (Panic msg, st).

Definition lift {A} (o : outcome A) : M A := fun st => (o, st).

Definition emit (e : Event) : M unit :=
  fun st => (Ret tt, mkState (world st) (trace st ++ [e])).

Definition call {A} (f : World -> A * World) : M A :=
  fun st => let (a, w) := f (world st) in (Ret a, mkState w (trace st)).

Notation "x <- m ;; k" := (bind m (fun x => k))
  (at level 61, m at next level, right associativity).
Notation "m ;;; k" := (bind m (fun _ => k))
  (at level 61, right associativity).

(** [time.Sleep(time.Second * d)]. *)
Definition Sleep (d : Z) : M unit := emit (EvSleep d).

(** [errors <- e] and [results <- batch]: the send is observed by the
    consumer, which receives in order. *)
Definition send_error (e : error) : M unit := emit (EvSendError e).
Definition send_results (batch : list CdxResponse) : M unit := emit (EvSendResults batch).

(** [if err != nil { errors <- wrap(err) }]. *)
Definition report (wrap : error -> error) (err : option error) : M unit :=
  match err with
  | Some e => send_error (wrap e)
  | None => ret tt
  end.

Definition len {A} (s : list A) : Z := Z.of_nat (List.length s).

(** *** common.go *)

Definition Status503Error : error := "Server returned 503 status response".
Definition Status500Error : error := "Server returned 500 status response. (Slow down)".

(** [RequestConfig.GetUrl]: the request URL grows by one [Sprintf] per
    parameter that is present. *)
Definition GetUrl (config : RequestConfig) (serverURL : string) (page : Z) : string :=
  let reqURL := serverURL +++ "?url=" +++ URL config +++ "&output=json" in
  let reqURL :=
    if negb (Limit config =? 0)%N
    then reqURL +++ "&limit=" +++ FormatInt (Z.of_N (Limit config)) else reqURL in
  let reqURL :=
    if negb (String.eqb (CollapseColumn config) "")
    then reqURL +++ "&collapse=" +++ CollapseColumn config else reqURL in
  let reqURL :=
    fold_left
      (fun reqURL filter =>
         if negb (String.eqb filter "") then reqURL +++ "&filter=" +++ filter else reqURL)
      (Filters config) reqURL in
  let reqURL :=
    if negb (IsZero (FromDate config))
    then reqURL +++ "&from=" +++ Format_20060102 (FromDate config) else reqURL in
  let reqURL :=
    if negb (IsZero (ToDate config))
    then reqURL +++ "&to=" +++ Format_20060102 (ToDate config) else reqURL in
  let reqURL :=
    if negb (SinglePage config)
    then reqURL +++ "&page=" +++ FormatInt page else reqURL in
  reqURL.

(** [req.Header.Set(k, v)]: the value of an existing key is replaced.
    Names are compared as they are written, where fasthttp first brings
    them to their canonical spelling: the two agree on names that are
    canonical already, as [User-Agent] and the [Range] of [GetFile] are. *)
Fixpoint header_set (hs : list (string * string)) (k v : string) : list (string * string) :=
  match hs with
  | [] => [(k, v)]
  | (k', v') :: r => if String.eqb k' k then (k, v) :: r else (k', v') :: header_set r k v
  end.

Definition HeaderUserAgent : string := "User-Agent".

(** [DoRequest]: one attempt with a random user agent; the status is
    classified after the transport error. *)
Definition DoRequest (url : string) (timeout : Z) (headers : list (string * string))
  : M (list byte * option error) :=
  ua <- call uarand_GetRandom ;;
  let reqHeaders :=
    fold_left (fun hs kv => header_set hs (fst kv) (snd kv)) headers
              (header_set [] HeaderUserAgent ua) in
  emit (EvDoRequest url reqHeaders timeout) ;;;
  r <- call (fasthttp_DoTimeout url reqHeaders timeout) ;;
  let (resp, err) := (r : FastResponse * option error) in
  match err with
  | Some e => ret ([], Some ("[GetRequest] Error making request: " +++ e))
  | None =>
    let body := match FastBody resp with Some b => b | None => [] end in
    if FastStatus resp =? 500 then ret ([], Some Status500Error)
    else if FastStatus resp =? 503 then ret (body, Some Status503Error)
    else if len body >? 0 then ret (body, None)
    else if negb (FastStatus resp =? 200)
    then ret ([], Some ("[GetRequest] Got " +++ FormatInt (FastStatus resp) +++ " status response"))
    else match FastBody resp with
         | None => ret ([], Some "[GetRequest] Response body is empty")
         | Some b => ret (b, None)
         end
  end.

(** The retry loop of [Get]: [n] iterations are left, [i] is the loop
    counter, [last] holds [resp] and [err] as the previous attempt left
    them.  [resp.StatusCode] is read only when [err == nil]. *)
Fixpoint Get_attempts (n : nat) (i : Z) (url : string) (timeout : Z)
         (last : option Response * option error)
  : M (option Response * option error) :=
  match n with
  | O => ret last
  | S n' =>
    emit (EvHttpGet url timeout) ;;;
    r <- call (http_client_Get url timeout) ;;
    match snd r with
    | None =>
      match fst r with
      | None => panic nil_dereference
      | Some resp =>
        if RespStatus resp =? 200 then ret r
        else Sleep (i + 1) ;;; Get_attempts n' (i + 1) url timeout r
      end
    | Some _ => Sleep (i + 1) ;;; Get_attempts n' (i + 1) url timeout r
    end
  end.

(** [Get]: after the loop, [defer resp.Body.Close()] reads [resp.Body],
    then [io.ReadAll(resp.Body)] is returned as it is. *)
Definition Get (url : string) (timeout : Z) (maxRetries : Z) : M (list byte * option error) :=
  r <- Get_attempts (Z.to_nat maxRetries) 0 url timeout (None, None) ;;
  match fst r with
  | None => panic nil_dereference
  | Some resp => ret (RespBody resp)
  end.

(** *** commoncrawl.go *)

Definition INDEX_SERVER : string := "https://index.commoncrawl.org/".
Definition CRAWL_STORAGE : string := "https://data.commoncrawl.org/".

Definition newline : byte := "010"%byte.

(** [bytes.Split(s, []byte{sep})]: the pieces between the separators, one
    more than there are separators. *)
Fixpoint Split (s : list byte) (sep : byte) : list (list byte) :=
  match s with
  | [] => [[]]
  | b :: r =>
    if Byte.eqb b sep then [] :: Split r sep
    else match Split r sep with
         | piece :: pieces => (b :: piece) :: pieces
         | [] => [[b]]
         end
  end.

(** [s[:hi]]. *)
Definition slice_to {A} (s : list A) (hi : Z) : outcome (list A) :=
  if (0 <=? hi) && (hi <=? len s) then Ret (firstn (Z.to_nat hi) s)
  else Panic slice_out_of_range.

(** The loop of [ParseResponse] over the lines, [pages] being the records
    appended so far. *)
Fixpoint ParseResponse_lines (cc : CommonCrawl) (lines : list (list byte))
         (pages : list CdxResponse) : list CdxResponse * option error :=
  match lines with
  | [] => (pages, None)
  | line :: rest =>
    match Unmarshal_Cdx line with
    | inl err =>
      ([], Some ("[ParseResponse] Cannot decode JSON line: " +++ err
                 +++ ". Response: " +++ string_of_list_byte line))
    | inr indexVal =>
      let indexVal := setSource indexVal (Some (CommonCrawlSource cc)) in
      ParseResponse_lines cc rest (pages ++ [indexVal])
    end
  end.

Definition ParseResponse (cc : CommonCrawl) (resp : list byte)
  : outcome (list CdxResponse * option error) :=
  if len resp =? 0 then Ret ([], Some "Empty response provided")
  else
    match slice_to resp (len resp - 1) with
    | Panic msg => Panic msg
    | Ret body => Ret (ParseResponse_lines cc (Split body newline) [])
    end.

Definition GetNumPagesIndex (cc : CommonCrawl) (url index : string) : M (Z * option error) :=
  let requestURI := INDEX_SERVER +++ index +++ "-index?url=" +++ url +++ "&showNumPages=true" in
  r <- Get requestURI (MaxTimeout cc) (MaxRetries cc) ;;
  match snd r with
  | Some err => ret (0, Some ("[GetNumPagesIndex] Request error: " +++ err))
  | None =>
    match Unmarshal_NumPages (fst r) with
    | inl err => ret (0, Some ("[GetNumPagesIndex] JSON decode error: " +++ err))
    | inr numPagesResp => ret (Pages numPagesResp, None)
    end
  end.

(** [config.Limit != 0 && uint(numResults) >= config.Limit]; [numResults]
    is a count of decoded records, never negative and far below 2^63, so
    the conversion to [uint] leaves it as it is. *)
Definition limit_reached (config : RequestConfig) (numResults : Z) : bool :=
  negb (Limit config =? 0)%N && (Z.of_N (Limit config) <=? numResults).

(** The page loop of [GetPagesIndex]: [n] pages are left from [page] on. *)
Fixpoint GetPagesIndex_loop (cc : CommonCrawl) (config : RequestConfig) (index : string)
         (n : nat) (page : Z) (results : list CdxResponse) (numResults : Z)
  : M (list CdxResponse * option error) :=
  match n with
  | O => ret (results, None)
  | S n' =>
    let indexURL := INDEX_SERVER +++ index +++ "-index" in
    let reqURL := GetUrl config indexURL page in
    r <- Get reqURL (MaxTimeout cc) (MaxRetries cc) ;;
    match snd r with
    | Some err => ret (results, Some ("[GetPagesIndex] Request error: " +++ err))
    | None =>
      p <- lift (ParseResponse cc (fst r)) ;;
      match snd p with
      | Some err => ret (results, Some ("[GetPagesIndex] Cannot parse response: " +++ err))
      | None =>
        let results := results ++ fst p in
        let numResults := numResults + len (fst p) in
        if limit_reached config numResults then ret (results, None)
        else GetPagesIndex_loop cc config index n' (page + 1) results numResults
      end
    end
  end.

Definition GetPagesIndex (cc : CommonCrawl) (config : RequestConfig) (index : string)
  : M (list CdxResponse * option error) :=
  pe <- (if SinglePage config then ret (1, None)
         else GetNumPagesIndex cc (URL config) index) ;;
  match snd pe with
  | Some err => ret ([], Some err)
  | None => GetPagesIndex_loop cc config index (Z.to_nat (fst pe)) 0 [] 0
  end.

(** [cc.indexes[0]]. *)
Definition first_index (cc : CommonCrawl) : outcome latestIndex :=
  match indexes cc with
  | [] => Panic index_out_of_range
  | idx :: _ => Ret idx
  end.

Definition GetPages (cc : CommonCrawl) (config : RequestConfig)
  : M (list CdxResponse * option error) :=
  idx <- lift (first_index cc) ;;
  GetPagesIndex cc config (Id idx).

Definition GetNumPages (cc : CommonCrawl) (url : string) : M (Z * option error) :=
  idx <- lift (first_index cc) ;;
  GetNumPagesIndex cc url (Id idx).

(** [filterIndices]: the loop appends the id of every index that neither
    test skips. *)
Definition filterIndices (cc : CommonCrawl) (config : RequestConfig) : outcome (list string) :=
  if IsZero (FromDate config) && IsZero (ToDate config) then
    match first_index cc with
    | Panic msg => Panic msg
    | Ret idx => Ret [Id idx]
    end
  else
    Ret (fold_left
           (fun indices idx =>
              if negb (IsZero (FromDate config)) && After (FromDate config) (From idx)
              then indices
              else if negb (IsZero (ToDate config)) && Before (ToDate config) (To idx)
              then indices
              else indices ++ [Id idx])
           (indexes cc) []).

(** One turn of the page loop of [FetchPages], up to and including the
    send on [results]; the value is the new [numResults]. *)
Definition FetchPages_page (cc : CommonCrawl) (config : RequestConfig) (indexURL : string)
           (page : Z) (numResults : Z) : M Z :=
  let reqURL := GetUrl config indexURL page in
  r <- Get reqURL (MaxTimeout cc) (MaxRetries cc) ;;
  report (fun e => "[FetchPages] Request error: " +++ e) (snd r) ;;;
  p <- lift (ParseResponse cc (fst r)) ;;
  report (fun e => "[FetchPages] Cannot parse response: " +++ e) (snd p) ;;;
  let numResults := numResults + len (fst p) in
  send_results (fst p) ;;;
  ret numResults.

(** The page loop of [FetchPages]; the boolean tells that the function
    has returned (the limit was reached). *)
Fixpoint FetchPages_pages (cc : CommonCrawl) (config : RequestConfig) (indexURL : string)
         (n : nat) (page : Z) (numResults : Z) : M (bool * Z) :=
  match n with
  | O => ret (false, numResults)
  | S n' =>
    numResults <- FetchPages_page cc config indexURL page numResults ;;
    if limit_reached config numResults then ret (true, numResults)
    else FetchPages_pages cc config indexURL n' (page + 1) numResults
  end.

(** The number of pages of one index, as [FetchPages] finds it. *)
Definition FetchPages_numPages (cc : CommonCrawl) (config : RequestConfig) (idx : string) : M Z :=
  if SinglePage config then ret 1
  else
    pe <- GetNumPagesIndex cc (URL config) idx ;;
    report (fun e => e) (snd pe) ;;;
    ret (fst pe).

(** The loop of [FetchPages] over the selected indices. *)
Fixpoint FetchPages_indices (cc : CommonCrawl) (config : RequestConfig)
         (idxs : list string) (numResults : Z) : M unit :=
  match idxs with
  | [] => ret tt
  | idx :: rest =>
    pages <- FetchPages_numPages cc config idx ;;
    let indexURL := INDEX_SERVER +++ idx +++ "-index" in
    r <- FetchPages_pages cc config indexURL (Z.to_nat pages) 0 numResults ;;
    if fst r then ret tt
    else FetchPages_indices cc config rest (snd r)
  end.

Definition FetchPages (cc : CommonCrawl) (config : RequestConfig) : M unit :=
  idxs <- lift (filterIndices cc config) ;;
  FetchPages_indices cc config idxs 0.

(** [GetFile]: the range end is computed on [int]; the header prints the
    offset as the record has it. *)
Definition GetFile (cc : CommonCrawl) (page : CdxResponse) : M (list byte * option error) :=
  let offset := fst (Atoi (Offset page)) in
  let length := fst (Atoi (Length page)) in
  let offsetEnd := wrap_int (wrap_int (offset + length) + 1) in
  let headers := [("Range", "bytes=" +++ Offset page +++ "-" +++ FormatInt offsetEnd)] in
  r <- DoRequest (CRAWL_STORAGE +++ Filename page) (MaxTimeout cc) headers ;;
  match snd r with
  | Some err => ret ([], Some ("[GetFile] Request error: " +++ err))
  | None =>
    match warc_NewReader (fst r) with
    | inl err => ret ([], Some ("[GetFile] Cannot decode WARC: " +++ err))
    | inr reader =>
      match warc_ReadRecord reader with
      | inl err => ret ([], Some ("[GetFile] Cannot decode WARC: " +++ err))
      | inr record => ret (warc_ReadContent record)
      end
    end
  end.

End Pipeline.

(** ** Vocabulary of the specification *)

Section Vocabulary.
Context {ext : Externals}.

(** The record as it leaves the decoder of provider [cc]. *)
Definition withSource (cc : CommonCrawl) (r : CdxResponse) : CdxResponse :=
  setSource r (Some (CommonCrawlSource cc)).

(** A line holds no line terminator. *)
Definition is_line (l : list byte) : Prop := ~ In newline l.

(** A well-formed line, and the record its JSON describes. *)
Definition decodes_to (l : list byte) (r : CdxResponse) : Prop :=
  is_line l /\ Unmarshal_Cdx l = inr r.

(** A page body: every line followed by the line terminator. *)
Definition ndjson (lines : list (list byte)) : list byte :=
  List.concat (map (fun l => l ++ [newline]) lines).

(** The error of [ParseResponse] for a line that fails with [err]. *)
Definition decode_error (err : error) (line : list byte) : error :=
  "[ParseResponse] Cannot decode JSON line: " +++ err
  +++ ". Response: " +++ string_of_list_byte line.

Definition empty_response_error : error := "Empty response provided".

(** A snapshot is excluded by a lower bound that is set and lies after
    its start, and by an upper bound that is set and lies before its end. *)
Definition date_bounds_unset (config : RequestConfig) : bool :=
  IsZero (FromDate config) && IsZero (ToDate config).

Definition excluded_by_fromDate (config : RequestConfig) (idx : latestIndex) : bool :=
  negb (IsZero (FromDate config)) && After (FromDate config) (From idx).

Definition excluded_by_toDate (config : RequestConfig) (idx : latestIndex) : bool :=
  negb (IsZero (ToDate config)) && Before (ToDate config) (To idx).

Definition selected (config : RequestConfig) (idx : latestIndex) : bool :=
  negb (excluded_by_fromDate config idx) && negb (excluded_by_toDate config idx).

(** The CDX query grammar:
    [<server>?url=<pattern>&output=json[&limit=N][&collapse=COL][&filter=F]*[&from=D][&to=D][&page=P]]. *)
Definition optional (present : bool) (param : string) : string :=
  if present then param else "".

Definition filter_params (filters : list string) : string :=
  fold_right
    (fun f params => optional (negb (String.eqb f "")) ("&filter=" +++ f) +++ params)
    "" filters.

Definition query_grammar (config : RequestConfig) (serverURL : string) (page : Z) : string :=
  serverURL +++ "?url=" +++ URL config +++ "&output=json"
  +++ optional (negb (Limit config =? 0)%N) ("&limit=" +++ FormatInt (Z.of_N (Limit config)))
  +++ optional (negb (String.eqb (CollapseColumn config) ""))
               ("&collapse=" +++ CollapseColumn config)
  +++ filter_params (Filters config)
  +++ optional (negb (IsZero (FromDate config)))
               ("&from=" +++ Format_20060102 (FromDate config))
  +++ optional (negb (IsZero (ToDate config)))
               ("&to=" +++ Format_20060102 (ToDate config))
  +++ optional (negb (SinglePage config)) ("&page=" +++ FormatInt page).

(** A decimal integer string: an optional sign, then one digit or more;
    its value is not bounded. *)
Definition decimal_integer (s : string) : option Z :=
  let digits (ds : string) : option Z :=
    match ds with
    | EmptyString => None
    | _ => if all_digits ds then Some (digits_value 0 ds) else None
    end in
  match s with
  | EmptyString => None
  | String c r =>
    if Ascii.eqb c "-" then option_map Z.opp (digits r)
    else if Ascii.eqb c "+" then digits r
    else digits s
  end.

(** The request of [GetFile] for [page] whose range ends at [rangeEnd],
    under the user agent [ua]. *)
Definition range_request (cc : CommonCrawl) (page : CdxResponse) (ua : string)
           (rangeEnd : Z) : Event :=
  EvDoRequest (CRAWL_STORAGE +++ Filename page)
              [(HeaderUserAgent, ua);
               ("Range", "bytes=" +++ Offset page +++ "-" +++ FormatInt rangeEnd)]
              (MaxTimeout cc).

(** [GetFile] issues exactly that request. *)
Definition issues_range (cc : CommonCrawl) (page : CdxResponse) (st : State)
           (rangeEnd : Z) : Prop :=
  trace (snd (GetFile cc page st))
  = trace st ++ [range_request cc page (fst (uarand_GetRandom (world st))) rangeEnd].

(** The range end is offset + length + 1 for whatever decimal integers
    the two fields hold. *)
Definition range_end_is_sum (cc : CommonCrawl) (page : CdxResponse) (st : State) : Prop :=
  forall offset length : Z,
    decimal_integer (Offset page) = Some offset ->
    decimal_integer (Length page) = Some length ->
    issues_range cc page st (offset + length + 1).

(** A server that never answers: every attempt ends without a response. *)
Definition unreachable (url : string) (timeout : Z) : Prop :=
  forall w, exists e w', http_client_Get url timeout w = ((None, Some e), w').

(** *** The orchestrators *)

Notation "x <- m ;; k" := (bind m (fun x => k))
  (at level 61, m at next level, right associativity).

(** The fetch of page [page] of snapshot [index]. *)
Definition fetch_page (cc : CommonCrawl) (config : RequestConfig) (index : string)
           (page : Z) : M (list byte * option error) :=
  Get (GetUrl config (INDEX_SERVER +++ index +++ "-index") page)
      (MaxTimeout cc) (MaxRetries cc).

(** The page is fetched and decoded without error, into [batch]. *)
Definition page_ok (cc : CommonCrawl) (config : RequestConfig) (index : string)
           (page : Z) (st : State) (batch : list CdxResponse) (st' : State) : Prop :=
  exists body,
    fetch_page cc config index page st = (Ret (body, None), st')
    /\ ParseResponse cc body = Ret (batch, None).

(** The request or the decoding of the page fails; [err] is the error as
    [GetPagesIndex] words it. *)
Definition page_fails (cc : CommonCrawl) (config : RequestConfig) (index : string)
           (page : Z) (st : State) (err : error) (st' : State) : Prop :=
  (exists body e,
      fetch_page cc config index page st = (Ret (body, Some e), st')
      /\ err = "[GetPagesIndex] Request error: " +++ e)
  \/ (exists body batch e,
         fetch_page cc config index page st = (Ret (body, None), st')
         /\ ParseResponse cc body = Ret (batch, Some e)
         /\ err = "[GetPagesIndex] Cannot parse response: " +++ e).

(** Consecutive pages from [page] on, each fetched and decoded without
    error, with the batches they gave. *)
Inductive pages_done (cc : CommonCrawl) (config : RequestConfig) (index : string)
  : Z -> State -> list (list CdxResponse) -> State -> Prop :=
| pages_done_nil (page : Z) (st : State) :
    pages_done cc config index page st [] st
| pages_done_cons (page : Z) (st st1 st2 : State)
                  (batch : list CdxResponse) (batches : list (list CdxResponse)) :
    page_ok cc config index page st batch st1 ->
    pages_done cc config index (page + 1) st1 batches st2 ->
    pages_done cc config index page st (batch :: batches) st2.

(** How [GetPagesIndex] finds the number of pages. *)
Definition count_pages (cc : CommonCrawl) (config : RequestConfig) (index : string)
  : M (Z * option error) :=
  if SinglePage config then ret (1, None) else GetNumPagesIndex cc (URL config) index.

(** What [FetchPages] sends on [errors] for a page whose fetch gave [err]
    and whose decoding gave [perr]. *)
Definition error_events (err perr : option error) : list Event :=
  match err with
  | Some e => [EvSendError ("[FetchPages] Request error: " +++ e)]
  | None => []
  end
  ++ match perr with
     | Some e => [EvSendError ("[FetchPages] Cannot parse response: " +++ e)]
     | None => []
     end.

(** The state after the sends of one page, [st1] being the state the
    fetch left. *)
Definition after_page (st1 : State) (err perr : option error)
           (batch : list CdxResponse) : State :=
  mkState (world st1) (trace st1 ++ error_events err perr ++ [EvSendResults batch]).

(** What is left of [FetchPages] inside snapshot [idx]: [n] pages from
    [page] on, then the snapshots [rest]. *)
Definition FetchPages_from (cc : CommonCrawl) (config : RequestConfig) (idx : string)
           (n : nat) (page : Z) (numResults : Z) (rest : list string) : M unit :=
  r <- FetchPages_pages cc config (INDEX_SERVER +++ idx +++ "-index") n page numResults ;;
  if fst r then ret tt else FetchPages_indices cc config rest (snd r).

(** The batches sent on [results], in order. *)
Definition sent_batches (tr : list Event) : list (list CdxResponse) :=
  flat_map (fun e => match e with EvSendResults b => [b] | _ => [] end) tr.

End Vocabulary.

(** ** A scripted world

    The attempts of the HTTP client are answered from a script, one entry
    per attempt; an exhausted script refuses the connection.  Lines of
    the form [{key}] decode to a record with that url key; a page count is
    the length of the body. *)

Module Script.

Definition unmarshal_braces (line : list byte) : error + CdxResponse :=
  match line with
  | "{"%byte :: rest =>
    match rev rest with
    | "}"%byte :: key =>
      inr (mkCdx (string_of_list_byte (rev key)) "" "" "" "" "" "" "" "" "" "" "" None)
    | _ => inl "unexpected end of input"
    end
  | _ => inl "expect { or n"
  end.

Definition unmarshal_pages (body : list byte) : error + numPagesResponse :=
  match body with
  | [] => inl "unexpected end of input"
  | _ => inr (mkNumPages (Z.of_nat (List.length body)) 0 0)
  end.

Definition next_attempt (url : string) (timeout : Z)
           (w : list (option Response * option error))
  : (option Response * option error) * list (option Response * option error) :=
  match w with
  | [] => ((None, Some "connection refused"), [])
  | a :: w' => (a, w')
  end.

#[export] Instance scripted : Externals := {|
  World := list (option Response * option error);
  http_client_Get := next_attempt;
  uarand_GetRandom := fun w => ("Mozilla/5.0", w);
  fasthttp_DoTimeout := fun _ _ _ w => ((mkFastResponse 200 (Some []), None), w);
  Unmarshal_Cdx := unmarshal_braces;
  Unmarshal_NumPages := unmarshal_pages;
  Format_20060102 := fun t => FormatInt (sec t);
  WarcReader := list byte;
  WarcRecord := list byte;
  warc_NewReader := fun b => inr b;
  warc_ReadRecord := fun b => inr b;
  warc_ReadContent := fun b => (b, None)
|}.

Definition start (script : list (option Response * option error)) : State :=
  mkState script [].

(** A response with this status whose body reads without error. *)
Definition answer (status : Z) (body : string) : option Response * option error :=
  (Some (mkResponse status (list_byte_of_string body, None)), None).

(** An attempt that fails before any response exists. *)
Definition refused : option Response * option error :=
  (None, Some "dial tcp: connection refused").

(** A response whose body breaks off while it is read. *)
Definition broken (status : Z) (body : string) : option Response * option error :=
  (Some (mkResponse status (list_byte_of_string body, Some "unexpected EOF")), None).

(** A record at offset 100 of length 50, and one whose offset is the
    largest [int]. *)
Definition capture (offset length : string) : CdxResponse :=
  mkCdx "org,example)/" "20240101000000" "" "text/html" "" "" "" offset
        "https://example.org/" length "200" "crawl-data/segment.warc.gz" None.


(** The record that [unmarshal_braces] reads from [{key}]. *)
Definition keyed (key : string) : CdxResponse :=
  mkCdx key "" "" "" "" "" "" "" "" "" "" "" None.

Definition bytes (s : string) : list byte := list_byte_of_string s.

(** A response with this status and these bytes as its body. *)
Definition page_body (status : Z) (body : list byte) : option Response * option error :=
  (Some (mkResponse status (body, None)), None).

(** A catalog of three snapshots, newest first, and three queries: no
    date bound, a window that only the middle snapshot passes, and a limit
    of three records. *)
Definition newest_snapshot : latestIndex :=
  mkIndex "CC-MAIN-2024-10" "February 2024" "" "" (mkTime 300 0) (mkTime 400 0).

Definition older_snapshots : list latestIndex :=
  [ mkIndex "CC-MAIN-2023-50" "December 2023" "" "" (mkTime 200 0) (mkTime 300 0);
    mkIndex "CC-MAIN-2023-40" "October 2023" "" "" (mkTime 100 0) (mkTime 200 0) ].

Definition catalog : list latestIndex := newest_snapshot :: older_snapshots.

Definition cc1 : CommonCrawl := mkCommonCrawl 5 1 catalog.

Definition query : RequestConfig :=
  mkConfig "example.org/*" [] 0 "" false zeroTime zeroTime.

Definition query_window : RequestConfig :=
  mkConfig "example.org/*" ["status:200"; ""; "mime:text/html"] 10 "urlkey" true
           (mkTime 150 0) (mkTime 350 0).

Definition line_a : list byte := bytes "{com,example)/a}".
Definition line_b : list byte := bytes "{com,example)/b}".
Definition line_c : list byte := bytes "{com,example)/c}".
Definition garbage : list byte := bytes "<html>503</html>".

(** The index answers that there are two pages; the first page holds two
    records, the body of the second breaks off while it is read, a third
    answer holds one record. *)
Definition two_pages : list (option Response * option error) :=
  [ answer 200 "{}";
    page_body 200 (ndjson [line_a; line_b]);
    broken 200 "";
    page_body 200 (ndjson [line_c]) ].

Definition newest : string := "CC-MAIN-2024-10".

Definition st_start : State := start two_pages.
Definition st_counted : State := snd (count_pages cc1 query newest st_start).
Definition st_page0 : State := snd (fetch_page cc1 query newest 0 st_counted).
Definition st_page1 : State := snd (fetch_page cc1 query newest 1 st_page0).

Definition record_a : CdxResponse := withSource cc1 (keyed "com,example)/a").
Definition record_b : CdxResponse := withSource cc1 (keyed "com,example)/b").
Definition read_error : error := "unexpected EOF".

End Script.

(** ** The catalog and its construction *)

(** What the catalog needs from outside the repository. *)
Class CatalogExternals := {
  (** [jsoniter.Unmarshal] into an empty [[]latestIndex]: the entries it
      leaves in the slice, and its error. *)
  Unmarshal_Indexes : list byte -> list latestIndex * option error;
  (** [time.Parse("2006-01-02T15:04:05", s)]. *)
  time_Parse : string -> error + Time
}.

Section Catalog.
Context {ext : Externals} {cat : CatalogExternals}.

Notation "x <- m ;; k" := (bind m (fun x => k))
  (at level 61, m at next level, right associativity).

(** The double quote. *)
Definition quote : ascii := "034"%char.

(** [strings.Trim(s, cutset)] for a cutset of one ASCII byte [c]: the
    bytes equal to [c] are cut from the right, then from the left. *)
Fixpoint trimRightByte (s : string) (c : ascii) : string :=
  match s with
  | EmptyString => EmptyString
  | String a r =>
    match trimRightByte r c with
    | EmptyString => if Ascii.eqb a c then EmptyString else String a EmptyString
    | t => String a t
    end
  end.

Fixpoint trimLeftByte (s : string) (c : ascii) : string :=
  match s with
  | EmptyString => EmptyString
  | String a r => if Ascii.eqb a c then trimLeftByte r c else s
  end.

Definition Trim (s : string) (c : ascii) : string :=
  trimLeftByte (trimRightByte s c) c.

(** [CustomTime.UnmarshalJSON]: the value [ct] points to afterwards,
    and the error. *)
Definition UnmarshalJSON (ct : Time) (b : list byte) : Time * option error :=
  let s := string_of_list_byte b in
  let s := Trim s quote in
  match time_Parse s with
  | inl err => (ct, Some err)
  | inr t => (t, None)
  end.

(** [GetIndexes]. *)
Definition GetIndexes (cc : CommonCrawl) : M (list latestIndex * option error) :=
  r <- Get (INDEX_SERVER +++ "collinfo.json") (MaxTimeout cc) (MaxRetries cc) ;;
  match snd r with
  | Some err => ret ([], Some ("[GetIndexes] response read error: " +++ err))
  | None =>
    let (latestIndexes, err) := Unmarshal_Indexes (fst r) in
    match err with
    | Some err =>
      ret (latestIndexes, Some ("[GetIndexes] Cannot get latest index ID: " +++ err))
    | None => ret (latestIndexes, None)
    end
  end.

(** [New]: a nil provider is [None]. *)
Definition New (timeout retries : Z) : M (option CommonCrawl * option error) :=
  let source := mkCommonCrawl timeout retries [] in
  r <- GetIndexes source ;;
  let source := mkCommonCrawl (MaxTimeout source) (MaxRetries source) (fst r) in
  match snd r with
  | Some err => ret (None, Some err)
  | None => ret (Some source, None)
  end.

End Catalog.

(** ** More vocabulary *)

Section Observations.
Context {ext : Externals}.

(** The successive answers of the HTTP client to one request, from the
    world [w] on. *)
Inductive answers (url : string) (timeout : Z)
  : World -> list (option Response * option error) -> World -> Prop :=
| answers_nil (w : World) : answers url timeout w [] w
| answers_cons (w w1 w2 : World) (a : option Response * option error)
               (rest : list (option Response * option error)) :
    http_client_Get url timeout w = (a, w1) ->
    answers url timeout w1 rest w2 ->
    answers url timeout w (a :: rest) w2.

(** An attempt after which the retry loop of [Get] goes on: an error, or
    a status other than 200. *)
Definition attempt_fails (a : option Response * option error) : bool :=
  match a with
  | (_, Some _) => true
  | (Some resp, None) => negb (RespStatus resp =? 200)
  | (None, None) => false
  end.

(** The events of [k] failed attempts, the first with loop counter [i]:
    each attempt is followed by a sleep of one second more. *)
Fixpoint retry_events (url : string) (timeout : Z) (i : Z) (k : nat) : list Event :=
  match k with
  | O => []
  | S k' => EvHttpGet url timeout :: EvSleep (i + 1) :: retry_events url timeout (i + 1) k'
  end.

(** The number of attempts of the HTTP client in a trace. *)
Definition count_attempts (tr : list Event) : nat :=
  List.length (filter (fun e => match e with EvHttpGet _ _ => true | _ => false end) tr).

(** The headers [DoRequest] puts on its request. *)
Definition request_headers (ua : string) (headers : list (string * string))
  : list (string * string) :=
  fold_left (fun hs kv => header_set hs (fst kv) (snd kv)) headers
            (header_set [] HeaderUserAgent ua).

(** The record points back to the provider [cc]. *)
Definition sourced (cc : CommonCrawl) (r : CdxResponse) : Prop :=
  Source r = Some (CommonCrawlSource cc).

(** The order of instants. *)
Definition time_leb (t u : Time) : bool :=
  (sec t <? sec u) || ((sec t =? sec u) && (nsec t <=? nsec u)).

(** The snapshot lies inside the window of the bounds that are set. *)
Definition inside_window (config : RequestConfig) (idx : latestIndex) : bool :=
  (IsZero (FromDate config) || time_leb (FromDate config) (From idx))
  && (IsZero (ToDate config) || time_leb (To idx) (ToDate config)).

(** The number of line terminators in a body. *)
Definition count_newlines (s : list byte) : nat :=
  List.length (filter (fun b => Byte.eqb b newline) s).

(** The lines of an input: the pieces between the newlines, a final
    newline ending the last line and not starting another one. *)
Definition input_lines (resp : list byte) : list (list byte) :=
  match resp with
  | [] => []
  | _ =>
    if Byte.eqb (last resp newline) newline
    then Split (removelast resp) newline
    else Split resp newline
  end.

(** The decoder fails at the first line of the input that does not
    decode, with that line in the error and no record. *)
Definition malformed_line_reported (cc : CommonCrawl) (resp : list byte) : Prop :=
  forall (pre post : list (list byte)) (bad : list byte) (err : error),
    input_lines resp = pre ++ bad :: post ->
    Forall (fun l => exists r, Unmarshal_Cdx l = inr r) pre ->
    Unmarshal_Cdx bad = inl err ->
    ParseResponse cc resp = Ret ([], Some (decode_error err bad)).


End Observations.

Module ScriptCatalog.

(** The body [[]] is the empty catalog, any other body that is not empty
    is the catalog of [Script]; a time is read as a number of seconds. *)
Definition unmarshal_indexes (body : list byte) : list latestIndex * option error :=
  match body with
  | [] => ([], Some "unexpected end of input")
  | ["["%byte; "]"%byte] => ([], None)
  | _ => (Script.catalog, None)
  end.

Definition parse_seconds (s : string) : error + Time :=
  if all_digits s then
    match s with
    | EmptyString => inl "cannot parse as 2006"
    | _ => inr (mkTime (digits_value 0 s) 0)
    end
  else inl "cannot parse as 2006".

#[export] Instance scripted : CatalogExternals := {|
  Unmarshal_Indexes := unmarshal_indexes;
  time_Parse := parse_seconds
|}.

Import Script.

(** A window that no snapshot of the catalog lies inside, and a query
    limited to two records. *)
Definition query_no_match : RequestConfig :=
  mkConfig "example.org/*" [] 0 "" false (mkTime 350 0) (mkTime 360 0).

Definition query_limit : RequestConfig :=
  mkConfig "example.org/*" [] 2 "" false zeroTime zeroTime.

(** Two pages that both arrive whole. *)
Definition both_pages : list (option Response * option error) :=
  [ answer 200 "{}";
    page_body 200 (ndjson [line_a; line_b]);
    page_body 200 (ndjson [line_c]) ].

Definition record_c : CdxResponse := withSource cc1 (keyed "com,example)/c").

Definition st_both : State := start both_pages.
Definition st_both_counted : State := snd (count_pages cc1 query newest st_both).
Definition st_both_page0 : State := snd (fetch_page cc1 query newest 0 st_both_counted).
Definition st_both_page1 : State := snd (fetch_page cc1 query newest 1 st_both_page0).

Definition st_limit_counted : State := snd (count_pages cc1 query_limit newest st_both).
Definition st_limit_page0 : State :=
  snd (fetch_page cc1 query_limit newest 0 st_limit_counted).

Definition collinfo : string := "https://index.commoncrawl.org/collinfo.json".


(** A window that the two newest snapshots lie inside, asked for one
    page of each. *)
Definition query_two : RequestConfig :=
  mkConfig "example.org/*" [] 0 "" true (mkTime 200 0) (mkTime 400 0).

(** The page of the newest snapshot is refused; the page of the next one
    would arrive. *)
Definition refused_then_page : list (option Response * option error) :=
  [ refused; page_body 200 (ndjson [line_a]) ].

(** Two pages are counted, the first arrives, the second is refused. *)
Definition page_then_refused : list (option Response * option error) :=
  [ answer 200 "{}"; page_body 200 (ndjson [line_a; line_b]); refused ].

(** A line that does not decode, without a newline after it. *)
Definition unterminated : list byte := bytes "{com,example)/a}X".


End ScriptCatalog.


(** ** A world whose server is down

    Every attempt of the HTTP client is refused; the rest is as in
    [Script]. *)

Module Offline.

#[export] Instance down : Externals := {|
  World := unit;
  http_client_Get := fun _ _ w => ((None, Some "dial tcp: connection refused"), w);
  uarand_GetRandom := fun w => ("Mozilla/5.0", w);
  fasthttp_DoTimeout := fun _ _ _ w => ((mkFastResponse 0 None, Some "timeout"), w);
  Unmarshal_Cdx := Script.unmarshal_braces;
  Unmarshal_NumPages := Script.unmarshal_pages;
  Format_20060102 := fun t => FormatInt (sec t);
  WarcReader := list byte;
  WarcRecord := list byte;
  warc_NewReader := fun b => inr b;
  warc_ReadRecord := fun b => inr b;
  warc_ReadContent := fun b => (b, None)
|}.

Definition begin : State := mkState tt [].

End Offline.


(** * Properties *)

Section Properties.
Context {ext : Externals}.

Notation "x <- m ;; k" := (bind m (fun x => k))
  (at level 61, m at next level, right associativity).

(** Case analysis on a scrutinee that holds no other case analysis. *)
Ltac case_innermost :=
  match goal with
  | |- context [match ?x with _ => _ end] =>
    lazymatch x with
    | context [match _ with _ => _ end] => fail
    | _ => destruct x
    end
  end.

(** ** The page decoder *)

Lemma len_nonneg {A} (s : list A) : 0 <= len s.
Proof. unfold len. lia. Qed.

Lemma slice_to_last {A} (s : list A) :
  s <> [] -> slice_to s (len s - 1) = Ret (removelast s).
Proof.
  intros Hs. unfold slice_to, len.
  assert (0 < List.length s)%nat by (destruct s; [congruence | simpl; lia]).
  replace ((0 <=? Z.of_nat (List.length s) - 1) && (Z.of_nat (List.length s) - 1 <=? Z.of_nat (List.length s)))
    with true by (symmetry; apply andb_true_intro; split; apply Z.leb_le; lia).
  rewrite removelast_firstn_len. do 2 f_equal. lia.
Qed.

Lemma ParseResponse_nonempty (cc : CommonCrawl) (resp : list byte) :
  resp <> [] ->
  ParseResponse cc resp = Ret (ParseResponse_lines cc (Split (removelast resp) newline) []).
Proof.
  intros Hs. unfold ParseResponse.
  destruct (len resp =? 0) eqn:E.
  - apply Z.eqb_eq in E. unfold len in E. destruct resp; [congruence | simpl in E; lia].
  - rewrite slice_to_last by assumption. reflexivity.
Qed.

Lemma Split_line (l : list byte) : is_line l -> Split l newline = [l].
Proof.
  unfold is_line. induction l as [|b l IH]; intros H; simpl; [reflexivity|].
  destruct (Byte.eqb b newline) eqn:E.
  - apply Byte.byte_dec_bl in E. subst. exfalso. apply H. now left.
  - rewrite IH; [reflexivity | intros Hin; apply H; now right].
Qed.

Lemma Split_line_sep (l rest : list byte) :
  is_line l -> Split (l ++ newline :: rest) newline = l :: Split rest newline.
Proof.
  unfold is_line. induction l as [|b l IH]; intros H; simpl.
  - reflexivity.
  - destruct (Byte.eqb b newline) eqn:E.
    + apply Byte.byte_dec_bl in E. subst. exfalso. apply H. now left.
    + rewrite IH; [reflexivity | intros Hin; apply H; now right].
Qed.





(** The line loop stops at the first line that does not decode. *)
Lemma ParseResponse_lines_bad (cc : CommonCrawl) (pre post : list (list byte))
      (bad : list byte) (err : error) (pages : list CdxResponse) :
  Forall (fun l => exists r, Unmarshal_Cdx l = inr r) pre ->
  Unmarshal_Cdx bad = inl err ->
  ParseResponse_lines cc (pre ++ bad :: post) pages = ([], Some (decode_error err bad)).
Proof.
  intros Hpre Hbad. revert pages.
  induction Hpre as [|l pre [r Hl] _ IH]; intros pages; simpl.
  - rewrite Hbad. reflexivity.
  - rewrite Hl. apply IH.
Qed.

(** The decoder never panics, and a failed decoding leaves no records. *)
Lemma ParseResponse_lines_err (cc : CommonCrawl) (lines : list (list byte))
      (pages : list CdxResponse) (e : error) :
  snd (ParseResponse_lines cc lines pages) = Some e ->
  fst (ParseResponse_lines cc lines pages) = [].
Proof.
  revert pages. induction lines as [|l lines IH]; intros pages; simpl.
  - discriminate.
  - destruct (Unmarshal_Cdx l); [reflexivity | apply IH].
Qed.

Lemma ParseResponse_total (cc : CommonCrawl) (resp : list byte) :
  exists batch perr,
    ParseResponse cc resp = Ret (batch, perr) /\ (perr <> None -> batch = []).
Proof.
  destruct resp as [|b resp].
  - exists [], (Some empty_response_error). split; [reflexivity | reflexivity].
  - rewrite ParseResponse_nonempty by discriminate.
    destruct (ParseResponse_lines cc (Split (removelast (b :: resp)) newline) [])
      as [batch perr] eqn:E.
    exists batch, perr. split; [reflexivity|].
    intros Hne. destruct perr as [e|]; [|congruence].
    change batch with (fst (batch, Some e)). rewrite <- E.
    apply ParseResponse_lines_err with (e := e). now rewrite E.
Qed.


(** C7, as amended.  When a page holds a line that does not decode and
    that is followed by a newline, after lines that do decode,
    [ParseResponse] fails at that line: no record is returned, and the
    error ends with the raw text of the line. *)
Theorem ParseResponse_malformed_line (cc : CommonCrawl)
        (pre : list (list byte)) (recs : list CdxResponse)
        (bad rest : list byte) (err : error) :
  Forall2 decodes_to pre recs ->
  is_line bad ->
  Unmarshal_Cdx bad = inl err ->
  ParseResponse cc (ndjson pre ++ bad ++ newline :: rest)
  = Ret ([], Some (decode_error err bad))
  /\ exists text, decode_error err bad = text +++ string_of_list_byte bad.
Proof.
  intros Hdec Hline Hbad. split.
  2:{ exists ("[ParseResponse] Cannot decode JSON line: " +++ err +++ ". Response: ").
      unfold decode_error.
      assert (Hassoc : forall a b c : string, (a +++ b) +++ c = a +++ (b +++ c)).
      { intros a b c. induction a as [|ch a IH]; simpl; [reflexivity | now rewrite IH]. }
      rewrite !Hassoc. reflexivity. }
  rewrite ParseResponse_nonempty by (destruct (ndjson pre); destruct bad; discriminate).
  assert (Hsplit : exists post,
             Split (removelast (ndjson pre ++ bad ++ newline :: rest)) newline
             = pre ++ bad :: post).
  { clear Hbad. induction Hdec as [|l r ls rs [Hl _] _ IH].
    - simpl. destruct rest as [|b rest'].
      + rewrite removelast_app by discriminate. simpl. rewrite app_nil_r.
        exists []. now apply Split_line.
      + rewrite removelast_app by discriminate.
        change (removelast (newline :: b :: rest')) with (newline :: removelast (b :: rest')).
        rewrite Split_line_sep by assumption. eexists. reflexivity.
    - destruct IH as [post IH]. exists post.
      unfold ndjson in *. simpl. rewrite <- !app_assoc. simpl.
      rewrite removelast_app by discriminate.
      set (tail := List.concat _ ++ bad ++ newline :: rest) in *.
      assert (Htail : tail <> []).
      { subst tail. destruct (List.concat _); destruct bad; discriminate. }
      replace (removelast (newline :: tail)) with (newline :: removelast tail)
        by (destruct tail; [congruence | reflexivity]).
      rewrite Split_line_sep by assumption. rewrite IH. reflexivity. }
  destruct Hsplit as [post Hsplit]. rewrite Hsplit.
  rewrite (ParseResponse_lines_bad cc pre post bad err []); [reflexivity | | assumption].
  clear -Hdec. induction Hdec as [|l r ls rs [_ Hr] _ IH]; constructor; eauto.
Qed.

(** C8. On an input of length zero [ParseResponse] returns, without a
    panic, no record and the error "Empty response provided". *)
Theorem ParseResponse_empty_input (cc : CommonCrawl) :
  ParseResponse cc [] = Ret ([], Some empty_response_error)
  /\ empty_response_error = "Empty response provided".
Proof. split; reflexivity. Qed.

(** ** The query-string builder *)

Lemma string_app_assoc (a b c : string) : (a +++ b) +++ c = a +++ (b +++ c).
Proof. induction a as [|ch a IH]; simpl; [reflexivity | now rewrite IH]. Qed.

Lemma string_app_nil_r (a : string) : a +++ "" = a.
Proof. induction a as [|ch a IH]; simpl; [reflexivity | now rewrite IH]. Qed.

Lemma GetUrl_filters (filters : list string) (reqURL : string) :
  fold_left
    (fun reqURL filter =>
       if negb (String.eqb filter "") then reqURL +++ "&filter=" +++ filter else reqURL)
    filters reqURL
  = reqURL +++ filter_params filters.
Proof.
  revert reqURL. induction filters as [|f filters IH]; intros reqURL; simpl.
  - now rewrite string_app_nil_r.
  - rewrite IH. unfold optional.
    destruct (negb (String.eqb f "")).
    + now rewrite !string_app_assoc.
    + reflexivity.
Qed.

(** C10. [GetUrl] is a function of the configuration, the server URL and
    the page index alone, and its value is the sentence of the CDX query
    grammar for them: the parameters come in the order of the grammar,
    [limit] when the limit is not zero, [collapse] when the collapse column
    is not empty, one [filter] per non-empty filter, [from] and [to] when
    the date is set, and [page] unless the single-page flag is set. *)
Theorem GetUrl_query_grammar (config : RequestConfig) (serverURL : string) (page : Z) :
  GetUrl config serverURL page = query_grammar config serverURL page.
Proof.
  unfold GetUrl, query_grammar, optional. cbv zeta.
  destruct (negb (Limit config =? 0)%N),
           (negb (String.eqb (CollapseColumn config) "")),
           (negb (IsZero (FromDate config))),
           (negb (IsZero (ToDate config))),
           (negb (SinglePage config));
    rewrite !GetUrl_filters;
    repeat rewrite string_app_assoc;
    rewrite ?string_app_nil_r;
    reflexivity.
Qed.

(** ** The snapshot filter *)

Lemma filterIndices_loop (config : RequestConfig) (idxs : list latestIndex)
      (indices : list string) :
  fold_left
    (fun indices idx =>
       if negb (IsZero (FromDate config)) && After (FromDate config) (From idx)
       then indices
       else if negb (IsZero (ToDate config)) && Before (ToDate config) (To idx)
       then indices
       else indices ++ [Id idx])
    idxs indices
  = indices ++ map Id (filter (selected config) idxs).
Proof.
  revert indices. induction idxs as [|idx idxs IH]; intros indices; simpl.
  - now rewrite app_nil_r.
  - rewrite IH. unfold selected, excluded_by_fromDate, excluded_by_toDate.
    destruct (negb (IsZero (FromDate config)) && After (FromDate config) (From idx));
      [reflexivity|].
    destruct (negb (IsZero (ToDate config)) && Before (ToDate config) (To idx));
      [reflexivity|].
    simpl. now rewrite <- app_assoc.
Qed.

(** C4. With both bounds unset [filterIndices] returns the id of the first
    snapshot alone; otherwise it returns, in the order of the catalog, the
    ids of the snapshots that no bound excludes. *)
Theorem filterIndices_selects (cc : CommonCrawl) (config : RequestConfig) :
  (date_bounds_unset config = true ->
   forall first rest, indexes cc = first :: rest ->
   filterIndices cc config = Ret [Id first])
  /\ (date_bounds_unset config = false ->
      filterIndices cc config = Ret (map Id (filter (selected config) (indexes cc)))).
Proof.
  unfold filterIndices, date_bounds_unset, first_index. split.
  - intros -> first rest ->. reflexivity.
  - intros ->. now rewrite filterIndices_loop.
Qed.

(** Without a snapshot and without bounds there is no first snapshot to
    return: the index expression panics. *)
Lemma filterIndices_empty_catalog (cc : CommonCrawl) (config : RequestConfig) :
  date_bounds_unset config = true -> indexes cc = [] ->
  filterIndices cc config = Panic index_out_of_range.
Proof.
  unfold filterIndices, date_bounds_unset, first_index. intros -> ->. reflexivity.
Qed.

(** ** The range arithmetic of the payload extractor *)

Lemma wrap_int_small (z : Z) : minInt <= z <= maxInt -> wrap_int z = z.
Proof.
  unfold minInt, maxInt, wrap_int, intSize. intros H.
  change (2 ^ 64) with (2 * 2 ^ (64 - 1)).
  assert (Hpos : 0 < 2 ^ (64 - 1)) by reflexivity.
  set (half := 2 ^ (64 - 1)) in *. clearbody half.
  rewrite Z.mod_small; lia.
Qed.

Lemma wrap_int_add_l (a b : Z) : wrap_int (wrap_int a + b) = wrap_int (a + b).
Proof.
  unfold wrap_int. f_equal.
  replace ((a + 2 ^ (intSize - 1)) mod 2 ^ intSize - 2 ^ (intSize - 1) + b + 2 ^ (intSize - 1))
    with ((a + 2 ^ (intSize - 1)) mod 2 ^ intSize + b) by lia.
  rewrite Zplus_mod_idemp_l. f_equal. lia.
Qed.

Lemma digit_value_range (c : ascii) : is_digit c = true -> 0 <= digit_value c <= 9.
Proof.
  unfold is_digit, digit_value. intros H. apply andb_prop in H. destruct H as [H1 H2].
  apply N.leb_le in H1. apply N.leb_le in H2. lia.
Qed.

Lemma digits_value_ge (ds : string) :
  forall acc, all_digits ds = true -> 0 <= acc -> acc <= digits_value acc ds.
Proof.
  induction ds as [|c ds IH]; intros acc Hall Hacc; simpl; [lia|].
  simpl in Hall. apply andb_prop in Hall. destruct Hall as [Hc Hds].
  pose proof (digit_value_range c Hc).
  specialize (IH (acc * 10 + digit_value c) Hds). lia.
Qed.

(** The digit loop on digits whose value fits [uint64]. *)
Lemma ParseUint_digits_value (ds : string) :
  forall n, all_digits ds = true -> 0 <= n -> digits_value n ds <= maxUint64 ->
            ParseUint_digits ds n = (digits_value n ds, None).
Proof.
  induction ds as [|c ds IH]; intros n Hall Hn Hfit; simpl; [reflexivity|].
  simpl in Hall, Hfit. apply andb_prop in Hall. destruct Hall as [Hc Hds].
  rewrite Hc. pose proof (digit_value_range c Hc) as Hd.
  pose proof (digits_value_ge ds (n * 10 + digit_value c) Hds ltac:(lia)) as Hge.
  change (maxUint64 / 10 + 1) with 1844674407370955162.
  change maxUint64 with 18446744073709551615 in *.
  destruct (Z.geb_spec n 1844674407370955162); [lia|].
  cbv zeta.
  destruct (Z.gtb_spec (n * 10 + digit_value c) 18446744073709551615); [lia|].
  apply IH; [assumption | lia | assumption].
Qed.

(** [Atoi] reads a decimal integer that fits an [int] without error. *)
Lemma Atoi_decimal_integer (s : string) (v : Z) :
  decimal_integer s = Some v -> minInt <= v <= maxInt -> Atoi s = (v, None).
Proof.
  assert (Hdigits : forall (ds : string) (d : Z),
             match ds with
             | EmptyString => None
             | _ => if all_digits ds then Some (digits_value 0 ds) else None
             end = Some d ->
             d <= maxUint64 -> ParseUint ds = (d, None) /\ 0 <= d).
  { intros ds d Hd Hfit. destruct ds as [|c ds]; [discriminate|].
    destruct (all_digits (String c ds)) eqn:Hall; [|discriminate].
    assert (Ed : digits_value 0 (String c ds) = d) by (injection Hd; auto).
    split.
    - unfold ParseUint. rewrite <- Ed.
      apply ParseUint_digits_value; [assumption | lia | now rewrite Ed].
    - rewrite <- Ed. apply (digits_value_ge (String c ds) 0 Hall). lia. }
  unfold decimal_integer, Atoi, ParseInt. destruct s as [|c r]; [discriminate|].
  unfold minInt, maxInt, intSize. change (2 ^ (64 - 1)) with 9223372036854775808.
  intros Hd Hr. cbv zeta.
  destruct (Ascii.eqb c "-") eqn:Hminus.
  - replace (Ascii.eqb c "+") with false
      by (apply Ascii.eqb_eq in Hminus; subst c; reflexivity).
    destruct (match r with
              | EmptyString => None
              | _ => if all_digits r then Some (digits_value 0 r) else None
              end) as [d|] eqn:E; [|discriminate].
    injection Hd as <-.
    destruct (Hdigits r d E) as [-> Hpos];
      [change maxUint64 with 18446744073709551615; lia|].
    cbn [negb andb].
    destruct (Z.gtb_spec d 9223372036854775808); [lia | reflexivity].
  - destruct (Ascii.eqb c "+").
    + destruct (Hdigits r v Hd) as [-> Hpos];
        [change maxUint64 with 18446744073709551615; lia|].
      cbn [negb andb].
      destruct (Z.geb_spec v 9223372036854775808); [lia | reflexivity].
    + destruct (Hdigits (String c r) v Hd) as [-> Hpos];
        [change maxUint64 with 18446744073709551615; lia|].
      cbn [negb andb].
      destruct (Z.geb_spec v 9223372036854775808); [lia | reflexivity].
Qed.

(** The one request of [GetFile], whatever comes back. *)
Lemma GetFile_request (cc : CommonCrawl) (page : CdxResponse) (st : State) :
  issues_range cc page st
    (wrap_int (wrap_int (fst (Atoi (Offset page)) + fst (Atoi (Length page))) + 1)).
Proof.
  unfold issues_range, range_request, GetFile, DoRequest, bind, call, emit, ret.
  cbn [world trace].
  destruct (uarand_GetRandom (world st)) as [ua w1]. cbn [fst snd world trace].
  cbn [fold_left header_set fst snd String.eqb Ascii.eqb Bool.eqb HeaderUserAgent].
  match goal with
  | |- context [fasthttp_DoTimeout ?u ?h ?t ?w] =>
    destruct (fasthttp_DoTimeout u h t w) as [[resp err] w2]
  end.
  repeat (cbn [world trace fst snd]; case_innermost); reflexivity.
Qed.

(** C9, as amended.  When the offset and the length are decimal integers
    that fit an [int], and so does offset + length + 1, [GetFile] issues
    its request with [Range: bytes=<offset>-<offset+length+1>], the offset
    being printed as the record has it. *)
Theorem GetFile_range_in_bounds (cc : CommonCrawl) (page : CdxResponse) (st : State)
        (offset length : Z) :
  decimal_integer (Offset page) = Some offset ->
  decimal_integer (Length page) = Some length ->
  minInt <= offset <= maxInt ->
  minInt <= length <= maxInt ->
  minInt <= offset + length + 1 <= maxInt ->
  issues_range cc page st (offset + length + 1).
Proof.
  intros Ho Hl Hro Hrl Hsum.
  pose proof (GetFile_request cc page st) as H.
  rewrite (Atoi_decimal_integer _ _ Ho Hro), (Atoi_decimal_integer _ _ Hl Hrl) in H.
  cbn [fst] in H. rewrite wrap_int_add_l, wrap_int_small in H by assumption.
  exact H.
Qed.

(** ** Running computations *)

Lemma bind_Ret {A B} (m : M A) (k : A -> M B) (st st' : State) (a : A) :
  m st = (Ret a, st') -> bind m k st = k a st'.
Proof. intros H. unfold bind. now rewrite H. Qed.

Lemma bind_Panic {A B} (m : M A) (k : A -> M B) (st st' : State) (msg : string) :
  m st = (Panic msg, st') -> bind m k st = (Panic msg, st').
Proof. intros H. unfold bind. now rewrite H. Qed.

(** ** The retrying client *)

Lemma Get_attempts_unreachable (url : string) (timeout : Z) :
  unreachable url timeout ->
  forall n i last st,
    fst last = None ->
    exists r st',
      Get_attempts n i url timeout last st = (Ret r, st') /\ fst r = None.
Proof.
  intros Hdown. induction n as [|n IH]; intros i last st Hlast.
  - exists last, st. split; [reflexivity | assumption].
  - simpl. unfold bind at 1. unfold emit at 1.
    unfold bind at 1. unfold call at 1. cbn [world trace].
    destruct (Hdown (world st)) as (e & w' & Hget). rewrite Hget. cbn [snd fst].
    unfold bind at 1. unfold Sleep, emit at 1. cbn [world trace].
    apply IH. reflexivity.
Qed.

(** With the server unreachable [Get] panics, whatever the number of
    retries: [resp] is nil when [resp.Body] is read. *)
Lemma Get_unreachable_panics (url : string) (timeout maxRetries : Z) (st : State) :
  unreachable url timeout ->
  fst (Get url timeout maxRetries st) = Panic nil_dereference.
Proof.
  intros Hdown. unfold Get.
  destruct (Get_attempts_unreachable url timeout Hdown
              (Z.to_nat maxRetries) 0 (None, None) st eq_refl) as (r & st' & Hrun & Hr).
  rewrite (bind_Ret _ _ _ _ _ Hrun). rewrite Hr. reflexivity.
Qed.

(** Without any attempt there is no response either. *)
Lemma Get_no_attempt_panics (url : string) (timeout maxRetries : Z) (st : State) :
  maxRetries <= 0 -> Get url timeout maxRetries st = (Panic nil_dereference, st).
Proof.
  intros H. unfold Get. replace (Z.to_nat maxRetries) with 0%nat by lia. reflexivity.
Qed.

(** A page of an unreachable server takes the page loop of [FetchPages]
    down with it: the panic of [Get] is no error that could be sent. *)
Lemma FetchPages_page_unreachable_panics (cc : CommonCrawl) (config : RequestConfig)
      (indexURL : string) (page numResults : Z) (st : State) :
  unreachable (GetUrl config indexURL page) (MaxTimeout cc) ->
  fst (FetchPages_page cc config indexURL page numResults st) = Panic nil_dereference.
Proof.
  intros Hdown.
  pose proof (Get_unreachable_panics (GetUrl config indexURL page) (MaxTimeout cc)
                                     (MaxRetries cc) st Hdown) as Hget.
  unfold FetchPages_page. unfold bind at 1.
  destruct (Get (GetUrl config indexURL page) (MaxTimeout cc) (MaxRetries cc) st)
    as [[r|msg] st1]; cbn [fst] in *; [discriminate|].
  injection Hget as ->. reflexivity.
Qed.

(** ** The bounded orchestrator *)

Lemma limit_reached_mono (config : RequestConfig) (m m' : Z) :
  limit_reached config m = false -> m' <= m -> limit_reached config m' = false.
Proof.
  unfold limit_reached. intros H Hle.
  destruct (negb (Limit config =? 0)%N); [|reflexivity].
  simpl in *. apply Z.leb_gt in H. apply Z.leb_gt. lia.
Qed.

Lemma len_app {A} (a b : list A) : len (a ++ b) = len a + len b.
Proof. unfold len. rewrite length_app. lia. Qed.

Lemma len_cons {A} (a : A) (l : list A) : len (a :: l) = 1 + len l.
Proof. unfold len. simpl List.length. lia. Qed.

(** The page loop, entered with [results] and [numResults], after the
    pages of [batches] and up to a page that fails. *)
Lemma GetPagesIndex_loop_aborts (cc : CommonCrawl) (config : RequestConfig) (index : string)
      (page : Z) (st st1 : State) (batches : list (list CdxResponse)) :
  pages_done cc config index page st batches st1 ->
  forall (n : nat) (results : list CdxResponse) (numResults : Z) (err : error) (st2 : State),
    (List.length batches < n)%nat ->
    limit_reached config (numResults + len (List.concat batches)) = false ->
    page_fails cc config index (page + len batches) st1 err st2 ->
    GetPagesIndex_loop cc config index n page results numResults st
    = (Ret (results ++ List.concat batches, Some err), st2).
Proof.
  induction 1 as [page st | page st st1 st2' batch batches Hok Hdone IH];
    intros n results numResults err st2 Hn Hlim Hfail.
  - destruct n as [|n]; [simpl in Hn; lia|].
    replace (page + len (@nil (list CdxResponse))) with page in Hfail
      by (unfold len; simpl; lia).
    simpl. rewrite app_nil_r.
    destruct Hfail as [(body & e & Hget & ->) | (body & batch & e & Hget & Hparse & ->)];
      unfold fetch_page in Hget; rewrite (bind_Ret _ _ _ _ _ Hget); cbn [snd fst].
    + reflexivity.
    + unfold bind, lift. rewrite Hparse. reflexivity.
  - destruct n as [|n]; [simpl in Hn; lia|].
    destruct Hok as (body & Hget & Hparse).
    simpl. unfold fetch_page in Hget. rewrite (bind_Ret _ _ _ _ _ Hget). cbn [snd fst].
    unfold bind at 1. unfold lift at 1. rewrite Hparse. cbn [snd fst].
    simpl List.concat in Hlim. rewrite len_app in Hlim.
    rewrite (limit_reached_mono config (numResults + (len batch + len (List.concat batches)))
                                (numResults + len batch) Hlim)
      by (pose proof (len_nonneg (List.concat batches)); lia).
    rewrite (IH n (results ++ batch) (numResults + len batch) err st2).
    + simpl List.concat. now rewrite app_assoc.
    + simpl in Hn. lia.
    + rewrite <- Hlim. f_equal. lia.
    + rewrite len_cons in Hfail.
      replace (page + 1 + len batches) with (page + (1 + len batches)) by lia.
      exact Hfail.
Qed.

(** X22. In [GetPagesIndex], once the number of pages is known, if the
    first pages are fetched and decoded without error and without
    reaching the limit, and then [Get] returns an error for the next page
    (its body could not be read) or [ParseResponse] fails on it, the call
    ends there without another request: it returns that error, wrapped,
    together with every record of the pages before, in order. *)
Theorem GetPagesIndex_aborts_with_accumulated (cc : CommonCrawl) (config : RequestConfig)
        (index : string) (st0 st st1 st2 : State) (pages : Z)
        (batches : list (list CdxResponse)) (err : error) :
  count_pages cc config index st0 = (Ret (pages, None), st) ->
  pages_done cc config index 0 st batches st1 ->
  len batches < pages ->
  limit_reached config (len (List.concat batches)) = false ->
  page_fails cc config index (len batches) st1 err st2 ->
  GetPagesIndex cc config index st0 = (Ret (List.concat batches, Some err), st2).
Proof.
  intros Hcount Hdone Hlt Hlim Hfail.
  unfold GetPagesIndex. unfold count_pages in Hcount.
  rewrite (bind_Ret _ _ _ _ _ Hcount). cbn [snd fst].
  apply (GetPagesIndex_loop_aborts cc config index 0 st st1 batches Hdone
           (Z.to_nat pages) [] 0 err st2).
  - unfold len in Hlt. lia.
  - exact Hlim.
  - exact Hfail.
Qed.

(** ** The streaming orchestrator *)

Lemma report_run (wrap : error -> error) (err : option error) (st : State) :
  report wrap err st
  = (Ret tt, mkState (world st)
                     (trace st ++ match err with
                                  | Some e => [EvSendError (wrap e)]
                                  | None => []
                                  end)).
Proof.
  destruct err; unfold report, send_error, emit, ret; [reflexivity|].
  rewrite app_nil_r. now destruct st.
Qed.

(** One turn of the page loop when the fetch returns: the errors, if any,
    then the batch. *)
Lemma FetchPages_page_run (cc : CommonCrawl) (config : RequestConfig) (indexURL : string)
      (page numResults : Z) (st st1 : State) (body : list byte)
      (err perr : option error) (batch : list CdxResponse) :
  Get (GetUrl config indexURL page) (MaxTimeout cc) (MaxRetries cc) st
  = (Ret (body, err), st1) ->
  ParseResponse cc body = Ret (batch, perr) ->
  FetchPages_page cc config indexURL page numResults st
  = (Ret (numResults + len batch), after_page st1 err perr batch).
Proof.
  intros Hget Hparse. unfold FetchPages_page.
  rewrite (bind_Ret _ _ _ _ _ Hget). cbn [fst snd].
  unfold bind at 1. rewrite report_run.
  unfold bind at 1. unfold lift at 1. rewrite Hparse. cbn [fst snd].
  unfold bind at 1. rewrite report_run.
  unfold bind, send_results, emit, ret, after_page, error_events. cbn [world trace].
  now rewrite <- !app_assoc.
Qed.

(** A turn of the page loop of [FetchPages] whose [Get] returns, with or
    without an error: the decoded batch is sent on the results channel
    after the errors of the page have been sent; when the decoding failed
    that batch is nil. *)
Theorem FetchPages_page_sends_batch (cc : CommonCrawl) (config : RequestConfig)
        (indexURL : string) (page numResults : Z) (st st1 : State)
        (body : list byte) (err : option error) :
  Get (GetUrl config indexURL page) (MaxTimeout cc) (MaxRetries cc) st
  = (Ret (body, err), st1) ->
  exists batch perr,
    ParseResponse cc body = Ret (batch, perr)
    /\ (perr <> None -> batch = [])
    /\ (body = [] -> perr = Some empty_response_error)
    /\ FetchPages_page cc config indexURL page numResults st
       = (Ret (numResults + len batch), after_page st1 err perr batch)
    /\ trace (after_page st1 err perr batch)
       = trace st1 ++ error_events err perr ++ [EvSendResults batch].
Proof.
  intros Hget.
  destruct (ParseResponse_total cc body) as (batch & perr & Hparse & Hnil).
  exists batch, perr. split; [assumption|]. split; [assumption|]. split; [|split].
  - intros ->. change (ParseResponse cc []) with
        (@Ret (list CdxResponse * option error) ([], Some empty_response_error)) in Hparse.
    now injection Hparse as _ <-.
  - exact (FetchPages_page_run cc config indexURL page numResults st st1 body err perr batch
             Hget Hparse).
  - reflexivity.
Qed.

(** The page loop, one turn unfolded. *)
Lemma FetchPages_pages_step (cc : CommonCrawl) (config : RequestConfig) (indexURL : string)
      (n : nat) (page numResults : Z) (st st1 : State) (body : list byte)
      (err perr : option error) (batch : list CdxResponse) :
  Get (GetUrl config indexURL page) (MaxTimeout cc) (MaxRetries cc) st
  = (Ret (body, err), st1) ->
  ParseResponse cc body = Ret (batch, perr) ->
  FetchPages_pages cc config indexURL (S n) page numResults st
  = if limit_reached config (numResults + len batch)
    then (Ret (true, numResults + len batch), after_page st1 err perr batch)
    else FetchPages_pages cc config indexURL n (page + 1) (numResults + len batch)
                          (after_page st1 err perr batch).
Proof.
  intros Hget Hparse. simpl.
  rewrite (bind_Ret _ _ _ _ _ (FetchPages_page_run cc config indexURL page numResults
                                 st st1 body err perr batch Hget Hparse)).
  destruct (limit_reached config (numResults + len batch)); reflexivity.
Qed.

(** What is left after the last page of a snapshot is the snapshots that
    follow. *)
Lemma FetchPages_from_last_page (cc : CommonCrawl) (config : RequestConfig) (idx : string)
      (page numResults : Z) (rest : list string) (st : State) :
  FetchPages_from cc config idx 0 page numResults rest st
  = FetchPages_indices cc config rest numResults st.
Proof. reflexivity. Qed.

(** The loop over the snapshots enters each snapshot at page 0. *)
Lemma FetchPages_indices_from (cc : CommonCrawl) (config : RequestConfig) (idx : string)
      (rest : list string) (numResults : Z) (st : State) :
  FetchPages_indices cc config (idx :: rest) numResults st
  = (pages <- FetchPages_numPages cc config idx ;;
     FetchPages_from cc config idx (Z.to_nat pages) 0 numResults rest) st.
Proof. reflexivity. Qed.

(** The page loop returns from the function only when the limit is set
    and reached. *)
Lemma FetchPages_pages_stops_at_limit (cc : CommonCrawl) (config : RequestConfig)
      (indexURL : string) (n : nat) :
  forall (page numResults : Z) (st st' : State) (m : Z),
    FetchPages_pages cc config indexURL n page numResults st = (Ret (true, m), st') ->
    limit_reached config m = true /\ Limit config <> 0%N.
Proof.
  induction n as [|n IH]; intros page numResults st st' m Hrun; simpl in Hrun.
  - discriminate.
  - unfold bind in Hrun.
    destruct (FetchPages_page cc config indexURL page numResults st) as [[k|msg] st1];
      [|discriminate].
    destruct (limit_reached config k) eqn:Hlim.
    + injection Hrun as <- _. split; [assumption|].
      unfold limit_reached in Hlim. intros E. rewrite E in Hlim. discriminate.
    + eapply IH. eassumption.
Qed.

(** A page of [FetchPages] whose [Get] returns an error, or whose decoding
    fails: the error is sent on the error channel and the loops go on.
    Unless the limit is set and reached, what is left to run is the next
    pages of the snapshot and then the next snapshots; a failed decoding
    adds no record, so it never brings the limit closer. *)
Theorem FetchPages_error_does_not_stop (cc : CommonCrawl) (config : RequestConfig)
        (idx : string) (rest : list string) (n : nat) (page numResults : Z)
        (st st1 : State) (body : list byte) (err perr : option error)
        (batch : list CdxResponse) :
  fetch_page cc config idx page st = (Ret (body, err), st1) ->
  ParseResponse cc body = Ret (batch, perr) ->
  err <> None \/ perr <> None ->
  (exists e, In (EvSendError e) (trace (after_page st1 err perr batch)))
  /\ FetchPages_from cc config idx (S n) page numResults rest st
     = (if limit_reached config (numResults + len batch)
        then (Ret tt, after_page st1 err perr batch)
        else FetchPages_from cc config idx n (page + 1) (numResults + len batch) rest
                             (after_page st1 err perr batch))
  /\ FetchPages_from cc config idx 0 (page + 1) (numResults + len batch) rest
                     (after_page st1 err perr batch)
     = FetchPages_indices cc config rest (numResults + len batch)
                          (after_page st1 err perr batch)
  /\ (perr <> None -> limit_reached config (numResults + len batch)
                      = limit_reached config numResults).
Proof.
  intros Hget Hparse Hfail. unfold fetch_page in Hget. repeat split.
  - unfold after_page, error_events. cbn [trace].
    destruct err as [e|].
    + exists ("[FetchPages] Request error: " +++ e).
      apply in_or_app. right. apply in_or_app. left. apply in_or_app. left. now left.
    + destruct perr as [e|]; [|destruct Hfail; congruence].
      exists ("[FetchPages] Cannot parse response: " +++ e).
      apply in_or_app. right. apply in_or_app. left. now left.
  - unfold FetchPages_from. unfold bind at 1.
    rewrite (FetchPages_pages_step cc config _ n page numResults st st1 body err perr batch
               Hget Hparse).
    destruct (limit_reached config (numResults + len batch)); reflexivity.
  - intros Hperr.
    destruct (ParseResponse_total cc body) as (batch' & perr' & Hparse' & Hnil).
    rewrite Hparse in Hparse'. injection Hparse' as <- <-.
    rewrite (Hnil Hperr). unfold len. simpl. f_equal. lia.
Qed.

(** A page count that cannot be had is reported, and the snapshot is
    passed over. *)
Lemma FetchPages_numPages_error_continues (cc : CommonCrawl) (config : RequestConfig)
      (idx : string) (rest : list string) (numResults : Z) (st st1 : State) (e : error) :
  SinglePage config = false ->
  GetNumPagesIndex cc (URL config) idx st = (Ret (0, Some e), st1) ->
  FetchPages_indices cc config (idx :: rest) numResults st
  = FetchPages_indices cc config rest numResults
                       (mkState (world st1) (trace st1 ++ [EvSendError e])).
Proof.
  intros Hsingle Hnum. simpl. unfold FetchPages_numPages. rewrite Hsingle.
  unfold bind at 1. unfold bind at 1. rewrite Hnum. cbn [snd fst].
  unfold bind at 1. rewrite report_run. reflexivity.
Qed.

(** *** Every page iterated gives one send on the results channel *)

Lemma sent_batches_app (a b : list Event) :
  sent_batches (a ++ b) = sent_batches a ++ sent_batches b.
Proof. unfold sent_batches. apply flat_map_app. Qed.

Lemma sent_batches_error_events (err perr : option error) :
  sent_batches (error_events err perr) = [].
Proof. destruct err, perr; reflexivity. Qed.

(** The client sends nothing on the channels. *)
Lemma Get_attempts_sent (url : string) (timeout : Z) (n : nat) :
  forall i last st,
    sent_batches (trace (snd (Get_attempts n i url timeout last st)))
    = sent_batches (trace st).
Proof.
  induction n as [|n IH]; intros i last st; [reflexivity|].
  simpl. unfold bind at 1. unfold emit at 1.
  unfold bind at 1. unfold call at 1. cbn [world trace].
  destruct (http_client_Get url timeout (world st)) as [[resp err] w].
  cbn [fst snd].
  assert (Hsleep : forall r,
             sent_batches
               (trace (snd (bind (Sleep (i + 1))
                                 (fun _ => Get_attempts n (i + 1) url timeout r)
                                 (mkState w (trace st ++ [EvHttpGet url timeout])))))
             = sent_batches (trace st)).
  { intros r. unfold bind, Sleep, emit. cbn [world trace]. rewrite IH. cbn [trace].
    rewrite !sent_batches_app. simpl. now rewrite !app_nil_r. }
  destruct err as [e|].
  - apply Hsleep.
  - destruct resp as [resp|].
    + destruct (RespStatus resp =? 200).
      * unfold ret. cbn [snd trace]. rewrite sent_batches_app. simpl. apply app_nil_r.
      * apply Hsleep.
    + unfold panic. cbn [snd trace]. rewrite sent_batches_app. simpl. apply app_nil_r.
Qed.

Lemma Get_sent (url : string) (timeout maxRetries : Z) (st : State) :
  sent_batches (trace (snd (Get url timeout maxRetries st))) = sent_batches (trace st).
Proof.
  unfold Get, bind.
  pose proof (Get_attempts_sent url timeout (Z.to_nat maxRetries) 0 (None, None) st) as H.
  destruct (Get_attempts (Z.to_nat maxRetries) 0 url timeout (None, None) st)
    as [[r|msg] st1]; cbn [snd] in *; [|assumption].
  destruct (fst r); assumption.
Qed.

(** A run of the page loop that does not panic sends one batch per page
    it went through: all [n] pages unless it returned at the limit. *)
Lemma FetchPages_pages_batches (cc : CommonCrawl) (config : RequestConfig)
      (indexURL : string) (n : nat) :
  forall (page numResults : Z) (st st' : State) (stopped : bool) (m : Z),
    FetchPages_pages cc config indexURL n page numResults st = (Ret (stopped, m), st') ->
    exists batches,
      sent_batches (trace st') = sent_batches (trace st) ++ batches
      /\ (List.length batches <= n)%nat
      /\ (stopped = false -> List.length batches = n)
      /\ m = numResults + len (List.concat batches).
Proof.
  induction n as [|n IH]; intros page numResults st st' stopped m Hrun.
  - simpl in Hrun. injection Hrun as <- <- <-.
    exists []. rewrite app_nil_r. repeat split; unfold len; simpl; lia.
  - pose proof (Get_sent (GetUrl config indexURL page) (MaxTimeout cc) (MaxRetries cc) st)
      as Hsent.
    destruct (Get (GetUrl config indexURL page) (MaxTimeout cc) (MaxRetries cc) st)
      as [[[body err]|msg] st1] eqn:Hget; cbn [snd] in Hsent.
    2:{ simpl in Hrun. unfold FetchPages_page in Hrun.
        unfold bind at 1 in Hrun. rewrite (bind_Panic _ _ _ _ _ Hget) in Hrun.
        discriminate. }
    destruct (ParseResponse_total cc body) as (batch & perr & Hparse & _).
    rewrite (FetchPages_pages_step cc config indexURL n page numResults st st1 body
               err perr batch Hget Hparse) in Hrun.
    assert (Hafter : sent_batches (trace (after_page st1 err perr batch))
                     = sent_batches (trace st) ++ [batch]).
    { unfold after_page. cbn [trace].
      rewrite !sent_batches_app, sent_batches_error_events, Hsent. reflexivity. }
    destruct (limit_reached config (numResults + len batch)).
    + injection Hrun as <- <- <-. exists [batch]. rewrite Hafter.
      repeat split; simpl; try lia; try discriminate.
      now rewrite app_nil_r.
    + destruct (IH _ _ _ _ _ _ Hrun) as (batches & Htr & Hle & Hall & Hm).
      exists (batch :: batches). rewrite Htr, Hafter, <- app_assoc.
      repeat split; simpl; try lia.
      * intros Hs. rewrite (Hall Hs). reflexivity.
      * rewrite len_app. lia.
Qed.

End Properties.

(** * Runs in the scripted world *)

Section Runs.
Import Script.
Existing Instance scripted.

(** C1. With one retry and an attempt that ends without a response,
    [Get] does not return the error of that attempt: it panics on the nil
    response when [resp.Body] is read for the deferred [Close]. *)
Theorem Get_panics_without_response :
  Get "https://index.commoncrawl.org/collinfo.json" 5 1 (start [refused])
  = (Panic nil_dereference,
     mkState [] [EvHttpGet "https://index.commoncrawl.org/collinfo.json" 5; EvSleep 1]).
Proof. reflexivity. Qed.

(** The same after three attempts of which the last has no response,
    while a last attempt that answers with a status other than 200 has its
    body returned without an error. *)
Example Get_three_attempts_then_panic :
  fst (Get "https://index.commoncrawl.org/collinfo.json" 5 3
           (start [answer 503 "busy"; refused; refused]))
  = Panic nil_dereference.
Proof. reflexivity. Qed.

Example Get_last_attempt_not_200 :
  fst (Get "https://index.commoncrawl.org/collinfo.json" 5 2
           (start [refused; answer 503 "busy"]))
  = Ret (bytes "busy", None).
Proof. reflexivity. Qed.

Example Get_succeeds_on_third_attempt :
  Get "https://index.commoncrawl.org/collinfo.json" 5 3
      (start [refused; answer 503 "busy"; answer 200 "[]"])
  = (Ret (bytes "[]", None),
     mkState [] [EvHttpGet "https://index.commoncrawl.org/collinfo.json" 5; EvSleep 1;
                 EvHttpGet "https://index.commoncrawl.org/collinfo.json" 5; EvSleep 2;
                 EvHttpGet "https://index.commoncrawl.org/collinfo.json" 5]).
Proof. reflexivity. Qed.

Lemma is_line_bytes_no_newline (l : list byte) :
  forallb (fun b => negb (Byte.eqb b newline)) l = true -> is_line l.
Proof.
  unfold is_line. induction l as [|b l IH]; simpl; intros H.
  - intros [].
  - apply andb_prop in H. destruct H as [Hb Hl]. intros [E|Hin].
    + subst b. discriminate.
    + now apply IH.
Qed.


Lemma ParseResponse_malformed_line_witness :
  Forall2 decodes_to [line_a] [keyed "com,example)/a"]
  /\ is_line garbage
  /\ Unmarshal_Cdx garbage = inl "expect { or n"
  /\ ParseResponse cc1 (ndjson [line_a] ++ garbage ++ newline :: ndjson [line_b])
     = Ret ([], Some "[ParseResponse] Cannot decode JSON line: expect { or n. Response: <html>503</html>").
Proof.
  assert (H1 : Forall2 decodes_to [line_a] [keyed "com,example)/a"]).
  { repeat constructor. apply is_line_bytes_no_newline. reflexivity. }
  assert (H2 : is_line garbage) by (apply is_line_bytes_no_newline; reflexivity).
  assert (H3 : Unmarshal_Cdx garbage = inl "expect { or n") by reflexivity.
  split; [exact H1|]. split; [exact H2|]. split; [exact H3|].
  exact (proj1 (ParseResponse_malformed_line cc1 _ _ garbage (ndjson [line_b]) _ H1 H2 H3)).
Defined.

Lemma filterIndices_selects_witness :
  date_bounds_unset query = true
  /\ indexes cc1 = newest_snapshot :: older_snapshots
  /\ filterIndices cc1 query = Ret ["CC-MAIN-2024-10"]
  /\ date_bounds_unset query_window = false
  /\ filterIndices cc1 query_window = Ret ["CC-MAIN-2023-50"].
Proof.
  assert (H1 : date_bounds_unset query = true) by reflexivity.
  assert (H2 : indexes cc1 = newest_snapshot :: older_snapshots) by reflexivity.
  assert (H3 : date_bounds_unset query_window = false) by reflexivity.
  split; [exact H1|]. split; [exact H2|]. split; [|split; [exact H3|]].
  - exact (proj1 (filterIndices_selects cc1 query) H1 _ _ H2).
  - exact (proj2 (filterIndices_selects cc1 query_window) H3).
Defined.

Example GetUrl_all_parameters :
  GetUrl query_window "https://index.commoncrawl.org/CC-MAIN-2024-10-index" 3
  = "https://index.commoncrawl.org/CC-MAIN-2024-10-index?url=example.org/*&output=json&limit=10&collapse=urlkey&filter=status:200&filter=mime:text/html&from=150&to=350".
Proof. reflexivity. Qed.

Example GetUrl_page_only :
  GetUrl query "https://index.commoncrawl.org/CC-MAIN-2024-10-index" 3
  = "https://index.commoncrawl.org/CC-MAIN-2024-10-index?url=example.org/*&output=json&page=3".
Proof. reflexivity. Qed.

(** C9, as stated, fails on an offset that is the largest [int]: the sum
    wraps around, and the range ends at the smallest [int]. *)
Lemma GetFile_range_wraps_around :
  ~ range_end_is_sum cc1 (capture "9223372036854775807" "0") (start []).
Proof.
  intros H. specialize (H maxInt 0 eq_refl eq_refl).
  unfold issues_range in H. vm_compute in H. discriminate H.
Qed.

Example GetFile_range_at_largest_offset :
  trace (snd (GetFile cc1 (capture "9223372036854775807" "0") (start [])))
  = [EvDoRequest "https://data.commoncrawl.org/crawl-data/segment.warc.gz"
                 [("User-Agent", "Mozilla/5.0");
                  ("Range", "bytes=9223372036854775807--9223372036854775808")] 5].
Proof. reflexivity. Qed.

Lemma GetFile_range_in_bounds_witness :
  decimal_integer (Offset (capture "100" "50")) = Some 100
  /\ decimal_integer (Length (capture "100" "50")) = Some 50
  /\ minInt <= 100 <= maxInt
  /\ minInt <= 50 <= maxInt
  /\ minInt <= 100 + 50 + 1 <= maxInt
  /\ trace (snd (GetFile cc1 (capture "100" "50") (start [])))
     = [EvDoRequest "https://data.commoncrawl.org/crawl-data/segment.warc.gz"
                    [("User-Agent", "Mozilla/5.0"); ("Range", "bytes=100-151")] 5].
Proof.
  assert (H1 : decimal_integer (Offset (capture "100" "50")) = Some 100) by reflexivity.
  assert (H2 : decimal_integer (Length (capture "100" "50")) = Some 50) by reflexivity.
  assert (H3 : minInt <= 100 <= maxInt) by (vm_compute; split; discriminate).
  assert (H4 : minInt <= 50 <= maxInt) by (vm_compute; split; discriminate).
  assert (H5 : minInt <= 100 + 50 + 1 <= maxInt) by (vm_compute; split; discriminate).
  repeat (split; [assumption|]).
  exact (GetFile_range_in_bounds cc1 (capture "100" "50") (start []) 100 50 H1 H2 H3 H4 H5).
Defined.

Lemma GetPagesIndex_aborts_with_accumulated_witness :
  count_pages cc1 query newest st_start = (Ret (2, None), st_counted)
  /\ pages_done cc1 query newest 0 st_counted [[record_a; record_b]] st_page0
  /\ len [[record_a; record_b]] < 2
  /\ limit_reached query (len (List.concat [[record_a; record_b]])) = false
  /\ page_fails cc1 query newest (len [[record_a; record_b]]) st_page0
                "[GetPagesIndex] Request error: unexpected EOF" st_page1
  /\ GetPagesIndex cc1 query newest st_start
     = (Ret ([record_a; record_b], Some "[GetPagesIndex] Request error: unexpected EOF"),
        st_page1).
Proof.
  assert (H1 : count_pages cc1 query newest st_start = (Ret (2, None), st_counted))
    by reflexivity.
  assert (H2 : pages_done cc1 query newest 0 st_counted [[record_a; record_b]] st_page0).
  { eapply pages_done_cons; [|apply pages_done_nil].
    exists (ndjson [line_a; line_b]). split; reflexivity. }
  assert (H3 : len [[record_a; record_b]] < 2) by reflexivity.
  assert (H4 : limit_reached query (len (List.concat [[record_a; record_b]])) = false)
    by reflexivity.
  assert (H5 : page_fails cc1 query newest (len [[record_a; record_b]]) st_page0
                          "[GetPagesIndex] Request error: unexpected EOF" st_page1).
  { left. exists [], read_error. split; reflexivity. }
  repeat (split; [assumption|]).
  exact (GetPagesIndex_aborts_with_accumulated cc1 query newest st_start st_counted
           st_page0 st_page1 2 [[record_a; record_b]] _ H1 H2 H3 H4 H5).
Defined.

Lemma FetchPages_page_sends_batch_witness :
  Get (GetUrl query "https://index.commoncrawl.org/CC-MAIN-2024-10-index" 1)
      (MaxTimeout cc1) (MaxRetries cc1) st_page0
  = (Ret ([], Some read_error), st_page1)
  /\ FetchPages_page cc1 query "https://index.commoncrawl.org/CC-MAIN-2024-10-index" 1 2
                     st_page0
     = (Ret 2,
        mkState (world st_page1)
                (trace st_page1
                 ++ [EvSendError "[FetchPages] Request error: unexpected EOF";
                     EvSendError "[FetchPages] Cannot parse response: Empty response provided";
                     EvSendResults []])).
Proof.
  assert (H1 : Get (GetUrl query "https://index.commoncrawl.org/CC-MAIN-2024-10-index" 1)
                   (MaxTimeout cc1) (MaxRetries cc1) st_page0
               = (Ret ([], Some read_error), st_page1)) by reflexivity.
  split; [exact H1|].
  destruct (FetchPages_page_sends_batch cc1 query _ 1 2 st_page0 st_page1 [] _ H1)
    as (batch & perr & Hparse & _ & _ & Hrun & _).
  change (ParseResponse cc1 []) with
      (@Ret (list CdxResponse * option error) ([], Some empty_response_error)) in Hparse.
  injection Hparse as <- <-. exact Hrun.
Defined.

Lemma FetchPages_error_does_not_stop_witness :
  fetch_page cc1 query newest 1 st_page0 = (Ret ([], Some read_error), st_page1)
  /\ ParseResponse cc1 [] = Ret ([], Some empty_response_error)
  /\ (Some read_error <> None \/ Some empty_response_error <> None)
  /\ FetchPages_from cc1 query newest 2 1 2 ["CC-MAIN-2023-50"] st_page0
     = FetchPages_from cc1 query newest 1 2 2 ["CC-MAIN-2023-50"]
                       (after_page st_page1 (Some read_error)
                                   (Some empty_response_error) []).
Proof.
  assert (H1 : fetch_page cc1 query newest 1 st_page0
               = (Ret ([], Some read_error), st_page1)) by reflexivity.
  assert (H2 : ParseResponse cc1 [] = Ret ([], Some empty_response_error)) by reflexivity.
  assert (H3 : Some read_error <> None \/ Some empty_response_error <> None)
    by (left; discriminate).
  repeat (split; [assumption|]).
  exact (proj1 (proj2 (FetchPages_error_does_not_stop cc1 query newest ["CC-MAIN-2023-50"]
                         1 1 2 st_page0 st_page1 [] _ _ [] H1 H2 H3))).
Defined.

(** A whole run: two pages in the newest snapshot, the second of which
    cannot be read; both pages give a send on the results channel. *)
Example FetchPages_run :
  sent_batches (trace (snd (FetchPages cc1 query st_start)))
  = [[record_a; record_b]; []]
  /\ fst (FetchPages cc1 query st_start) = Ret tt.
Proof. split; reflexivity. Qed.

End Runs.

(** * Further properties of the code *)

Section Coverage.
Context {ext : Externals} {cat : CatalogExternals}.

(** ** The retry loop of [Get] *)

Lemma last_cons_default {A} (a d : A) (l : list A) : last (a :: l) d = last l a.
Proof.
  revert a d. induction l as [|b l IH]; intros a d; [reflexivity|].
  change (last (a :: b :: l) d) with (last (b :: l) d).
  now rewrite !IH.
Qed.

Lemma answers_app_inv (url : string) (timeout : Z)
      (l1 l2 : list (option Response * option error)) :
  forall w w2,
    answers url timeout w (l1 ++ l2) w2 ->
    exists w1, answers url timeout w l1 w1 /\ answers url timeout w1 l2 w2.
Proof.
  induction l1 as [|a l1 IH]; intros w w2 H; simpl in H.
  - exists w. split; [constructor | assumption].
  - inversion H as [|? w1 ? ? ? Hget Hrest]; subst.
    destruct (IH _ _ Hrest) as (w1' & H1 & H2).
    exists w1'. split; [econstructor; eassumption | assumption].
Qed.

(** The loop runs through failed attempts, sleeping one second more
    after each. *)
Lemma Get_attempts_failed (url : string) (timeout : Z)
      (fails : list (option Response * option error)) (w w1 : World) :
  answers url timeout w fails w1 ->
  forallb attempt_fails fails = true ->
  forall (n : nat) (i : Z) (last0 : option Response * option error) (tr : list Event),
    Get_attempts (List.length fails + n) i url timeout last0 (mkState w tr)
    = Get_attempts n (i + Z.of_nat (List.length fails)) url timeout (last fails last0)
                   (mkState w1 (tr ++ retry_events url timeout i (List.length fails))).
Proof.
  induction 1 as [w | w w1 w2 a rest Hget Hrest IH]; intros Hall n i last0 tr.
  - simpl. rewrite app_nil_r. f_equal. lia.
  - simpl in Hall. apply andb_prop in Hall. destruct Hall as [Ha Hall].
    rewrite last_cons_default.
    cbn [List.length Nat.add Get_attempts].
    unfold bind at 1. unfold emit at 1.
    unfold bind at 1. unfold call at 1. cbn [world trace]. rewrite Hget.
    assert (Hgo : bind (Sleep (i + 1))
                       (fun _ => Get_attempts (List.length rest + n) (i + 1) url timeout a)
                       (mkState w1 (tr ++ [EvHttpGet url timeout]))
                  = Get_attempts n (i + Z.of_nat (S (List.length rest))) url timeout
                                 (last rest a)
                                 (mkState w2 (tr ++ retry_events url timeout i
                                                                 (S (List.length rest))))).
    { unfold bind, Sleep, emit. cbn [world trace].
      rewrite (IH Hall n (i + 1) a). cbn [retry_events].
      rewrite <- !app_assoc. cbn [app].
      replace (i + 1 + Z.of_nat (List.length rest))
        with (i + Z.of_nat (S (List.length rest))) by lia.
      reflexivity. }
    destruct a as [[resp|] [e|]]; cbn [fst snd]; try exact Hgo.
    + simpl in Ha. rewrite (negb_true_iff _) in Ha. rewrite Ha. exact Hgo.
    + discriminate Ha.
Qed.

(** X1. When the first attempts fail and the next one, still within
    [maxRetries], answers 200 without error, [Get] returns what reading
    the body of that answer gives, after exactly these attempts, having
    slept 1, 2, ... seconds after the failed ones and not after the last. *)
Theorem Get_succeeds_after_failures (url : string) (timeout maxRetries : Z) (st : State)
        (fails : list (option Response * option error)) (resp : Response) (w' : World) :
  answers url timeout (world st) (fails ++ [(Some resp, None)]) w' ->
  forallb attempt_fails fails = true ->
  RespStatus resp = 200 ->
  Z.of_nat (List.length fails) < maxRetries ->
  Get url timeout maxRetries st
  = (Ret (RespBody resp),
     mkState w' (trace st ++ retry_events url timeout 0 (List.length fails)
                          ++ [EvHttpGet url timeout])).
Proof.
  intros Hans Hfail Hok Hlt.
  destruct (answers_app_inv _ _ _ _ _ _ Hans) as (w1 & Hpre & Hlast).
  inversion Hlast as [|? w2 ? ? ? Hget Hnil]; subst.
  inversion Hnil; subst.
  unfold Get.
  replace (Z.to_nat maxRetries)
    with (List.length fails + S (Z.to_nat maxRetries - List.length fails - 1))%nat by lia.
  destruct st as [w tr]. cbn [world trace] in *.
  unfold bind at 1.
  rewrite (Get_attempts_failed url timeout fails w w1 Hpre Hfail).
  cbn [Get_attempts].
  unfold bind at 1. unfold emit at 1.
  unfold bind at 1. unfold call at 1. cbn [world trace]. rewrite Hget.
  cbn [fst snd]. rewrite Hok. cbn [Z.eqb Pos.eqb]. unfold ret. cbn [fst].
  now rewrite <- app_assoc.
Qed.

(** X2. When every one of the [maxRetries] attempts fails and the last
    of them has a response, [Get] returns what reading the body of that
    response gives: the status of the response and the error of the
    attempt are not reported, and a sleep follows the last attempt too. *)
Theorem Get_exhausted_returns_last_body (url : string) (timeout maxRetries : Z) (st : State)
        (all : list (option Response * option error)) (resp : Response)
        (err : option error) (w' : World) :
  answers url timeout (world st) all w' ->
  forallb attempt_fails all = true ->
  Z.of_nat (List.length all) = maxRetries ->
  last all (None, None) = (Some resp, err) ->
  Get url timeout maxRetries st
  = (Ret (RespBody resp),
     mkState w' (trace st ++ retry_events url timeout 0 (List.length all))).
Proof.
  intros Hans Hfail Hlen Hlast.
  unfold Get.
  replace (Z.to_nat maxRetries) with (List.length all + 0)%nat by lia.
  destruct st as [w tr]. cbn [world trace] in *.
  unfold bind at 1.
  rewrite (Get_attempts_failed url timeout all w w' Hans Hfail).
  cbn [Get_attempts]. unfold ret at 1. rewrite Hlast. reflexivity.
Qed.

(** The loop never makes more attempts than it has turns. *)
Lemma Get_attempts_count (url : string) (timeout : Z) (n : nat) :
  forall i last0 st,
    (count_attempts (trace (snd (Get_attempts n i url timeout last0 st)))
     <= count_attempts (trace st) + n)%nat.
Proof.
  assert (Happ : forall tr e, count_attempts (tr ++ [e])
                              = (count_attempts tr
                                 + match e with EvHttpGet _ _ => 1 | _ => 0 end)%nat).
  { intros tr e. unfold count_attempts. rewrite filter_app, length_app.
    destruct e; reflexivity. }
  induction n as [|n IH]; intros i last0 st; [simpl; lia|].
  simpl. unfold bind at 1. unfold emit at 1.
  unfold bind at 1. unfold call at 1. cbn [world trace].
  destruct (http_client_Get url timeout (world st)) as [[resp err] w].
  cbn [fst snd].
  assert (Hsleep : forall r,
             (count_attempts
                (trace (snd (bind (Sleep (i + 1))
                                  (fun _ => Get_attempts n (i + 1) url timeout r)
                                  (mkState w (trace st ++ [EvHttpGet url timeout])))))
              <= count_attempts (trace st) + S n)%nat).
  { intros r. unfold bind, Sleep, emit. cbn [world trace].
    etransitivity; [apply IH|]. cbn [trace]. rewrite !Happ. lia. }
  destruct err as [e|].
  - apply Hsleep.
  - destruct resp as [resp|].
    + destruct (RespStatus resp =? 200).
      * unfold ret. cbn [snd trace]. rewrite Happ. lia.
      * apply Hsleep.
    + unfold panic. cbn [snd trace]. rewrite Happ. lia.
Qed.

(** X3. Whatever the server does and however [Get] ends, it makes at
    most [maxRetries] attempts, and none when [maxRetries] is not
    positive. *)
Theorem Get_attempts_bounded (url : string) (timeout maxRetries : Z) (st : State) :
  (count_attempts (trace (snd (Get url timeout maxRetries st)))
   <= count_attempts (trace st) + Z.to_nat maxRetries)%nat.
Proof.
  unfold Get, bind.
  pose proof (Get_attempts_count url timeout (Z.to_nat maxRetries) 0 (None, None) st) as H.
  destruct (Get_attempts (Z.to_nat maxRetries) 0 url timeout (None, None) st)
    as [[r|msg] st1]; cbn [snd] in *; [|assumption].
  destruct (fst r); assumption.
Qed.

(** ** The single-attempt client *)

(** X4. [DoRequest] never panics and makes one request.  It returns no
    error exactly when the transport gave none, the status is neither 500
    nor 503, and the body is not nil and either holds a byte or came with
    status 200; the body returned is then the body of the response.  So a
    404 with a body counts as a success, and a 200 with a nil body does
    not. *)
Theorem DoRequest_success_iff (url : string) (timeout : Z)
        (headers : list (string * string)) (st : State)
        (ua : string) (w1 w2 : World) (resp : FastResponse) (err : option error) :
  uarand_GetRandom (world st) = (ua, w1) ->
  fasthttp_DoTimeout url (request_headers ua headers) timeout w1 = ((resp, err), w2) ->
  exists body e,
    DoRequest url timeout headers st
    = (Ret (body, e),
       mkState w2 (trace st ++ [EvDoRequest url (request_headers ua headers) timeout]))
    /\ (e = None <->
        err = None /\ FastStatus resp <> 500 /\ FastStatus resp <> 503
        /\ exists b, FastBody resp = Some b /\ (b <> [] \/ FastStatus resp = 200))
    /\ (e = None -> FastBody resp = Some body).
Proof.
  intros Hua Hdo.
  unfold DoRequest. unfold bind at 1. unfold call at 1. rewrite Hua.
  unfold bind at 1. unfold emit at 1. cbn [world trace].
  unfold bind at 1. unfold call at 1. cbn [world trace].
  fold (request_headers ua headers). rewrite Hdo.
  destruct err as [e|].
  { eexists _, _. split; [reflexivity|]. split; [|discriminate].
    split; [discriminate | intros (H & _); discriminate]. }
  destruct (Z.eqb_spec (FastStatus resp) 500) as [E500|N500].
  { eexists _, _. split; [reflexivity|]. split; [|discriminate].
    split; [discriminate | intros (_ & H & _); contradiction]. }
  destruct (Z.eqb_spec (FastStatus resp) 503) as [E503|N503].
  { eexists _, _. split; [reflexivity|]. split; [|discriminate].
    split; [discriminate | intros (_ & _ & H & _); contradiction]. }
  destruct (FastBody resp) as [b|] eqn:Hbody.
  - destruct b as [|x b].
    + change (len (@nil byte) >? 0) with false. cbv iota.
      destruct (Z.eqb_spec (FastStatus resp) 200) as [E200|N200]; cbn [negb].
      * eexists _, _. split; [reflexivity|]. split; [|reflexivity].
        split; [|reflexivity]. intros _. repeat split; try assumption.
        exists []. split; [reflexivity | now right].
      * eexists _, _. split; [reflexivity|]. split; [|discriminate].
        split; [discriminate|].
        intros (_ & _ & _ & b' & Hb' & [Hne|H200]);
          [injection Hb' as <-; congruence | contradiction].
    + replace (len (x :: b) >? 0) with true
        by (symmetry; apply Z.gtb_lt; unfold len; simpl List.length; lia).
      eexists _, _. split; [reflexivity|]. split; [|reflexivity].
      split; [|reflexivity]. intros _. repeat split; try assumption.
      exists (x :: b). split; [reflexivity | left; discriminate].
  - change (len (@nil byte) >? 0) with false. cbv iota.
    destruct (negb (FastStatus resp =? 200));
      (eexists _, _; split; [reflexivity|]; split; [|discriminate];
       split; [discriminate|]; intros (_ & _ & _ & b' & Hb' & _); discriminate).
Qed.

(** ** More on the page decoder *)

Lemma Split_length (s : list byte) :
  List.length (Split s newline) = S (count_newlines s).
Proof.
  unfold count_newlines. induction s as [|b s IH]; [reflexivity|].
  simpl. destruct (Byte.eqb b newline).
  - simpl. now rewrite IH.
  - destruct (Split s newline) as [|piece pieces]; [discriminate IH|].
    simpl in *. exact IH.
Qed.

Lemma ParseResponse_lines_length (cc : CommonCrawl) (lines : list (list byte)) :
  forall pages batch,
    ParseResponse_lines cc lines pages = (batch, None) ->
    List.length batch = (List.length pages + List.length lines)%nat.
Proof.
  induction lines as [|l lines IH]; intros pages batch H; simpl in H.
  - injection H as <-. simpl. lia.
  - destruct (Unmarshal_Cdx l); [discriminate|].
    rewrite (IH _ _ H), length_app. simpl. lia.
Qed.

Lemma ParseResponse_lines_sourced (cc : CommonCrawl) (lines : list (list byte)) :
  forall pages,
    Forall (sourced cc) pages ->
    Forall (sourced cc) (fst (ParseResponse_lines cc lines pages)).
Proof.
  induction lines as [|l lines IH]; intros pages H; simpl; [assumption|].
  destruct (Unmarshal_Cdx l); [constructor|].
  apply IH. apply Forall_app. split; [assumption|].
  constructor; [reflexivity | constructor].
Qed.

Lemma ParseResponse_sourced (cc : CommonCrawl) (resp : list byte)
      (batch : list CdxResponse) (perr : option error) :
  ParseResponse cc resp = Ret (batch, perr) -> Forall (sourced cc) batch.
Proof.
  destruct resp as [|b resp]; intros H.
  - change (ParseResponse cc []) with
        (@Ret (list CdxResponse * option error) ([], Some empty_response_error)) in H.
    injection H as <- _. constructor.
  - rewrite ParseResponse_nonempty in H by discriminate.
    injection H as H. change batch with (fst (batch, perr)). rewrite <- H.
    apply ParseResponse_lines_sourced. constructor.
Qed.

(** X5. [ParseResponse] never panics, on any input.  When it returns an
    error it returns no record; when it returns none, the input was not
    empty and there is one record for each line, that is one more than
    there are newline bytes before the last byte of the input; every
    record points back to the provider. *)
Theorem ParseResponse_outcomes (cc : CommonCrawl) (resp : list byte) :
  exists batch perr,
    ParseResponse cc resp = Ret (batch, perr)
    /\ Forall (sourced cc) batch
    /\ match perr with
       | Some _ => batch = []
       | None =>
         resp <> []
         /\ List.length batch = S (count_newlines (removelast resp))
       end.
Proof.
  destruct (ParseResponse_total cc resp) as (batch & perr & Hrun & Hnil).
  exists batch, perr. split; [exact Hrun|].
  split; [exact (ParseResponse_sourced cc resp batch perr Hrun)|].
  destruct perr as [e|]; [apply Hnil; discriminate|].
  destruct resp as [|b resp].
  - change (ParseResponse cc []) with
        (@Ret (list CdxResponse * option error) ([], Some empty_response_error)) in Hrun.
    discriminate Hrun.
  - split; [discriminate|].
    rewrite ParseResponse_nonempty in Hrun by discriminate.
    injection Hrun as Hrun.
    rewrite (ParseResponse_lines_length cc _ _ _ Hrun), Split_length. reflexivity.
Qed.

(** X6. [ParseResponse] does not look at the last byte of its input:
    the terminator is cut off whether it is a newline or not, so a body
    that lacks the final newline loses the last byte of its last line. *)
Theorem ParseResponse_ignores_last_byte (cc : CommonCrawl) (body : list byte) (b b' : byte) :
  ParseResponse cc (body ++ [b]) = ParseResponse cc (body ++ [b'])
  /\ ParseResponse cc (body ++ [b])
     = Ret (ParseResponse_lines cc (Split body newline) []).
Proof.
  assert (H : forall x, ParseResponse cc (body ++ [x])
                        = Ret (ParseResponse_lines cc (Split body newline) [])).
  { intros x. rewrite ParseResponse_nonempty by (destruct body; discriminate).
    now rewrite removelast_last. }
  split; [now rewrite !H | apply H].
Qed.

(** ** More on the query string *)

Lemma string_app_inv_head (a b c : string) : a +++ b = a +++ c -> b = c.
Proof.
  induction a as [|ch a IH]; simpl; intros H; [assumption|].
  injection H as H. now apply IH.
Qed.

Lemma FormatInt_inj (p q : Z) : FormatInt p = FormatInt q -> p = q.
Proof.
  unfold FormatInt. intros H.
  assert (Hnil : forall z, Z.to_int z <> Decimal.Pos Decimal.Nil
                           /\ Z.to_int z <> Decimal.Neg Decimal.Nil).
  { intros [|x|x]; simpl; split; try discriminate;
      intros E; injection E as E; exact (DecimalPos.Unsigned.to_uint_nonnil x E). }
  apply DecimalZ.to_int_inj.
  assert (E : NilZero.int_of_string (NilZero.string_of_int (Z.to_int p))
              = NilZero.int_of_string (NilZero.string_of_int (Z.to_int q)))
    by now rewrite H.
  rewrite !NilZero.isi in E by apply Hnil.
  now injection E.
Qed.

(** X7. With the single-page flag [GetUrl] gives one URL for all page
    indices; without it two page indices never share a URL. *)
Theorem GetUrl_page_distinguishes (config : RequestConfig) (serverURL : string) (p q : Z) :
  (SinglePage config = true -> GetUrl config serverURL p = GetUrl config serverURL q)
  /\ (SinglePage config = false ->
      GetUrl config serverURL p = GetUrl config serverURL q -> p = q).
Proof.
  unfold GetUrl. cbv zeta.
  match goal with
  | |- context [if negb (SinglePage config) then ?x +++ _ else _] => generalize x
  end.
  intros head. split; intros ->; cbn [negb]; [reflexivity|].
  intros H. apply string_app_inv_head in H.
  apply (string_app_inv_head "&page=") in H. now apply FormatInt_inj.
Qed.

(** X8. Empty filter expressions leave no trace in the URL: [GetUrl]
    gives the same URL as for the configuration without them. *)
Theorem GetUrl_skips_empty_filters (url : string) (filters : list string) (limit : N)
        (collapse : string) (single : bool) (fromDate toDate : Time)
        (serverURL : string) (page : Z) :
  GetUrl (mkConfig url filters limit collapse single fromDate toDate) serverURL page
  = GetUrl (mkConfig url (filter (fun f => negb (String.eqb f "")) filters)
                     limit collapse single fromDate toDate)
           serverURL page.
Proof.
  unfold GetUrl. cbv zeta. cbn [URL Filters Limit CollapseColumn SinglePage FromDate ToDate].
  assert (H : forall fs acc,
             fold_left
               (fun reqURL f =>
                  if negb (String.eqb f "") then reqURL +++ "&filter=" +++ f else reqURL)
               fs acc
             = fold_left
                 (fun reqURL f =>
                    if negb (String.eqb f "") then reqURL +++ "&filter=" +++ f else reqURL)
                 (filter (fun f => negb (String.eqb f "")) fs) acc).
  { induction fs as [|f fs IH]; intros acc; [reflexivity|].
    simpl. destruct (negb (String.eqb f "")) eqn:E; simpl; [rewrite E|]; apply IH. }
  now rewrite H.
Qed.

(** ** More on the snapshot filter *)

Lemma selected_inside_window (config : RequestConfig) (idx : latestIndex) :
  selected config idx = inside_window config idx.
Proof.
  unfold selected, inside_window, excluded_by_fromDate, excluded_by_toDate,
    After, Before, time_leb.
  destruct (IsZero (FromDate config)), (IsZero (ToDate config)); cbn [negb andb orb];
    repeat match goal with
           | |- context [?a >? ?b] => destruct (Z.gtb_spec a b)
           | |- context [?a <? ?b] => destruct (Z.ltb_spec a b)
           | |- context [?a <=? ?b] => destruct (Z.leb_spec a b)
           | |- context [?a =? ?b] => destruct (Z.eqb_spec a b)
           end; cbn [negb andb orb]; try reflexivity; lia.
Qed.

(** X9. With a bound set, [filterIndices] never panics and keeps exactly
    the snapshots that lie inside the window: those that start no earlier
    than a set [FromDate] and end no later than a set [ToDate].  A
    snapshot that only overlaps the window, or that contains it, is left
    out. *)
Theorem filterIndices_inside_window (cc : CommonCrawl) (config : RequestConfig) :
  date_bounds_unset config = false ->
  exists ids,
    filterIndices cc config = Ret ids
    /\ forall id,
        In id ids <->
        exists idx, In idx (indexes cc) /\ Id idx = id /\ inside_window config idx = true.
Proof.
  intros Hset. unfold filterIndices. unfold date_bounds_unset in Hset. rewrite Hset.
  eexists. split; [reflexivity|].
  intros id. rewrite filterIndices_loop. cbn [app]. rewrite in_map_iff.
  split; intros (idx & H1 & H2).
  - apply filter_In in H2. destruct H2 as [Hin Hsel].
    exists idx. rewrite <- selected_inside_window. auto.
  - destruct H2 as [Hid Hwin]. exists idx. split; [assumption|].
    apply filter_In. rewrite selected_inside_window. auto.
Qed.

(** X10. When no snapshot lies inside the window, [FetchPages] returns at
    once: no request is made and nothing is sent on either channel. *)
Theorem FetchPages_nothing_selected (cc : CommonCrawl) (config : RequestConfig) (st : State) :
  date_bounds_unset config = false ->
  (forall idx, In idx (indexes cc) -> inside_window config idx = false) ->
  FetchPages cc config st = (Ret tt, st).
Proof.
  intros Hset Hnone. unfold FetchPages, filterIndices.
  unfold date_bounds_unset in Hset. rewrite Hset.
  rewrite filterIndices_loop. cbn [app].
  replace (filter (selected config) (indexes cc)) with (@nil latestIndex); [reflexivity|].
  symmetry. induction (indexes cc) as [|idx idxs IH]; [reflexivity|].
  simpl. rewrite selected_inside_window, (Hnone idx) by now left.
  apply IH. intros i Hi. apply Hnone. now right.
Qed.

(** ** More on the bounded orchestrator *)

Lemma GetPagesIndex_loop_sourced (cc : CommonCrawl) (config : RequestConfig)
      (index : string) (n : nat) :
  forall page results numResults st recs e st',
    Forall (sourced cc) results ->
    GetPagesIndex_loop cc config index n page results numResults st
    = (Ret (recs, e), st') ->
    Forall (sourced cc) recs.
Proof.
  induction n as [|n IH]; intros page results numResults st recs e st' Hres Hrun.
  - simpl in Hrun. unfold ret in Hrun. injection Hrun as <- _ _. assumption.
  - simpl in Hrun. unfold bind at 1 in Hrun.
    destruct (Get _ _ _ st) as [[[body err]|msg] st1]; [|discriminate].
    cbn [fst snd] in Hrun. destruct err as [err|].
    { unfold ret in Hrun. injection Hrun as <- _ _. assumption. }
    unfold bind at 1 in Hrun. unfold lift at 1 in Hrun.
    destruct (ParseResponse_total cc body) as (batch & perr & Hparse & _).
    rewrite Hparse in Hrun. cbn [fst snd] in Hrun.
    destruct perr as [perr|].
    { unfold ret in Hrun. injection Hrun as <- _ _. assumption. }
    assert (Hall : Forall (sourced cc) (results ++ batch)).
    { apply Forall_app. split; [assumption|].
      exact (ParseResponse_sourced cc body batch None Hparse). }
    destruct (limit_reached config (numResults + len batch)).
    + unfold ret in Hrun. injection Hrun as <- _ _. assumption.
    + exact (IH _ _ _ _ _ _ _ Hall Hrun).
Qed.

(** X11. Every record that [GetPagesIndex] returns, with or without an
    error, points back to the provider that fetched it. *)
Theorem GetPagesIndex_records_sourced (cc : CommonCrawl) (config : RequestConfig)
        (index : string) (st st' : State) (recs : list CdxResponse) (e : option error) :
  GetPagesIndex cc config index st = (Ret (recs, e), st') ->
  Forall (sourced cc) recs.
Proof.
  unfold GetPagesIndex. intros Hrun. unfold bind at 1 in Hrun.
  destruct ((if SinglePage config then ret (1, None)
             else GetNumPagesIndex cc (URL config) index) st)
    as [[[pages err]|msg] st1]; [|discriminate].
  cbn [fst snd] in Hrun. destruct err as [err|].
  - unfold ret in Hrun. injection Hrun as <- _ _. constructor.
  - exact (GetPagesIndex_loop_sourced cc config index _ _ _ _ _ _ _ _
             (Forall_nil _) Hrun).
Qed.

(** The page loop through pages that are all fetched and decoded; it
    ends after the last of its [n] pages or at the limit. *)
Lemma GetPagesIndex_loop_done (cc : CommonCrawl) (config : RequestConfig) (index : string)
      (page : Z) (st st1 : State) (batches : list (list CdxResponse)) :
  pages_done cc config index page st batches st1 ->
  forall (n : nat) (results : list CdxResponse) (numResults : Z),
    limit_reached config (numResults + len (List.concat (removelast batches))) = false ->
    List.length batches = n
    \/ (batches <> [] /\ (List.length batches <= n)%nat
        /\ limit_reached config (numResults + len (List.concat batches)) = true) ->
    GetPagesIndex_loop cc config index n page results numResults st
    = (Ret (results ++ List.concat batches, None), st1).
Proof.
  induction 1 as [page st | page st st1 st2 batch batches Hok Hdone IH];
    intros n results numResults Hbelow Hend.
  - destruct Hend as [<- | (Hne & _)]; [|congruence].
    simpl. now rewrite app_nil_r.
  - assert (Hn : exists n', n = S n').
    { destruct n as [|n']; [|now exists n'].
      destruct Hend as [Hend | (_ & Hend & _)]; simpl in Hend; lia. }
    destruct Hn as [n' ->].
    destruct Hok as (body & Hget & Hparse).
    simpl GetPagesIndex_loop. unfold fetch_page in Hget.
    rewrite (bind_Ret _ _ _ _ _ Hget). cbn [snd fst].
    unfold bind at 1. unfold lift at 1. rewrite Hparse. cbn [snd fst].
    destruct batches as [|batch' batches'].
    + inversion Hdone; subst. simpl List.concat. rewrite app_nil_r.
      destruct (limit_reached config (numResults + len batch)) eqn:E; [reflexivity|].
      destruct Hend as [Hend | (_ & _ & Hend)].
      * simpl in Hend. injection Hend as <-. reflexivity.
      * simpl List.concat in Hend. rewrite app_nil_r in Hend. congruence.
    + change (removelast (batch :: batch' :: batches'))
        with (batch :: removelast (batch' :: batches')) in Hbelow.
      rewrite concat_cons, len_app in Hbelow.
      rewrite (limit_reached_mono config _ (numResults + len batch) Hbelow)
        by (generalize (len_nonneg (List.concat (removelast (batch' :: batches')))); lia).
      rewrite (IH n' (results ++ batch) (numResults + len batch)).
      * rewrite (concat_cons batch). now rewrite !app_assoc.
      * rewrite <- Hbelow. f_equal. lia.
      * destruct Hend as [Hend | (_ & Hle & Hend)].
        -- left. simpl in Hend. simpl. lia.
        -- right. split; [discriminate|]. split; [simpl in *; lia|].
           rewrite <- Hend. f_equal. rewrite (concat_cons batch), len_app. lia.
Qed.

(** X12. When every page the index counts is fetched and decoded, and the
    limit is not reached before the last of them, [GetPagesIndex] returns
    the records of all the pages, in page order, and no error. *)
Theorem GetPagesIndex_returns_all_pages (cc : CommonCrawl) (config : RequestConfig)
        (index : string) (st0 st st1 : State) (pages : Z)
        (batches : list (list CdxResponse)) :
  count_pages cc config index st0 = (Ret (pages, None), st) ->
  pages_done cc config index 0 st batches st1 ->
  List.length batches = Z.to_nat pages ->
  limit_reached config (len (List.concat (removelast batches))) = false ->
  GetPagesIndex cc config index st0 = (Ret (List.concat batches, None), st1).
Proof.
  intros Hcount Hdone Hlen Hbelow.
  unfold GetPagesIndex. unfold count_pages in Hcount.
  rewrite (bind_Ret _ _ _ _ _ Hcount). cbn [snd fst].
  apply (GetPagesIndex_loop_done cc config index 0 st st1 batches Hdone
           (Z.to_nat pages) [] 0); [exact Hbelow | now left].
Qed.

(** X13. When the limit is reached with some page, [GetPagesIndex] stops
    there without another request, and returns every record of the pages
    fetched so far: the last page is not cut, so the result may hold more
    records than the limit. *)
Theorem GetPagesIndex_stops_at_limit (cc : CommonCrawl) (config : RequestConfig)
        (index : string) (st0 st st1 : State) (pages : Z)
        (batches : list (list CdxResponse)) :
  count_pages cc config index st0 = (Ret (pages, None), st) ->
  pages_done cc config index 0 st batches st1 ->
  batches <> [] ->
  len batches <= pages ->
  limit_reached config (len (List.concat (removelast batches))) = false ->
  limit_reached config (len (List.concat batches)) = true ->
  GetPagesIndex cc config index st0 = (Ret (List.concat batches, None), st1)
  /\ Z.of_N (Limit config) <= len (List.concat batches).
Proof.
  intros Hcount Hdone Hne Hle Hbelow Hat. split.
  - unfold GetPagesIndex. unfold count_pages in Hcount.
    rewrite (bind_Ret _ _ _ _ _ Hcount). cbn [snd fst].
    apply (GetPagesIndex_loop_done cc config index 0 st st1 batches Hdone
             (Z.to_nat pages) [] 0); [exact Hbelow|].
    right. split; [assumption|]. split; [unfold len in Hle; lia | exact Hat].
  - unfold limit_reached in Hat. apply andb_prop in Hat. destruct Hat as [_ Hat].
    now apply Z.leb_le.
Qed.

(** ** More on the streaming orchestrator *)

Lemma report_sent (wrap : error -> error) (err : option error) (st : State) :
  sent_batches (trace (snd (report wrap err st))) = sent_batches (trace st).
Proof.
  rewrite report_run. cbn [snd trace]. rewrite sent_batches_app.
  destruct err; simpl; apply app_nil_r.
Qed.

Lemma GetNumPagesIndex_sent (cc : CommonCrawl) (url index : string) (st : State) :
  sent_batches (trace (snd (GetNumPagesIndex cc url index st))) = sent_batches (trace st).
Proof.
  unfold GetNumPagesIndex.
  match goal with
  | |- context [Get ?u ?t ?r] => pose proof (Get_sent u t r st) as H
  end.
  unfold bind.
  destruct (Get _ _ _ st) as [[r|msg] st1]; cbn [snd] in *; [|assumption].
  destruct (snd r); [assumption|].
  destruct (Unmarshal_NumPages (fst r)); assumption.
Qed.

Lemma FetchPages_numPages_sent (cc : CommonCrawl) (config : RequestConfig) (idx : string)
      (st : State) :
  sent_batches (trace (snd (FetchPages_numPages cc config idx st)))
  = sent_batches (trace st).
Proof.
  unfold FetchPages_numPages. destruct (SinglePage config); [reflexivity|].
  pose proof (GetNumPagesIndex_sent cc (URL config) idx st) as H.
  unfold bind at 1.
  destruct (GetNumPagesIndex cc (URL config) idx st) as [[pe|msg] st1];
    cbn [snd] in *; [|assumption].
  unfold bind. rewrite report_run. unfold ret. cbn [snd trace].
  rewrite sent_batches_app. destruct (snd pe); simpl; now rewrite app_nil_r.
Qed.

(** The sends of one turn of the page loop, however the turn ends. *)
Lemma FetchPages_page_cases (cc : CommonCrawl) (config : RequestConfig) (indexURL : string)
      (page numResults : Z) (st : State) :
  (exists msg st1,
      FetchPages_page cc config indexURL page numResults st = (Panic msg, st1)
      /\ sent_batches (trace st1) = sent_batches (trace st))
  \/ (exists batch st1,
         FetchPages_page cc config indexURL page numResults st
         = (Ret (numResults + len batch), st1)
         /\ sent_batches (trace st1) = sent_batches (trace st) ++ [batch]
         /\ Forall (sourced cc) batch).
Proof.
  pose proof (Get_sent (GetUrl config indexURL page) (MaxTimeout cc) (MaxRetries cc) st)
    as Hsent.
  destruct (Get (GetUrl config indexURL page) (MaxTimeout cc) (MaxRetries cc) st)
    as [[[body err]|msg] st1] eqn:Hget; cbn [snd] in Hsent.
  - right. destruct (ParseResponse_total cc body) as (batch & perr & Hparse & _).
    exists batch, (after_page st1 err perr batch).
    split; [exact (FetchPages_page_run cc config indexURL page numResults st st1 body
                      err perr batch Hget Hparse)|].
    split; [|exact (ParseResponse_sourced cc body batch perr Hparse)].
    unfold after_page. cbn [trace].
    now rewrite !sent_batches_app, sent_batches_error_events, Hsent.
  - left. exists msg, st1. split; [|assumption].
    unfold FetchPages_page. now rewrite (bind_Panic _ _ _ _ _ Hget).
Qed.

Lemma FetchPages_pages_sourced (cc : CommonCrawl) (config : RequestConfig)
      (indexURL : string) (n : nat) :
  forall page numResults st,
  exists new,
    sent_batches (trace (snd (FetchPages_pages cc config indexURL n page numResults st)))
    = sent_batches (trace st) ++ new
    /\ Forall (Forall (sourced cc)) new.
Proof.
  induction n as [|n IH]; intros page numResults st.
  - exists []. split; [now rewrite app_nil_r | constructor].
  - simpl. unfold bind at 1.
    destruct (FetchPages_page_cases cc config indexURL page numResults st)
      as [(msg & st1 & -> & Hs) | (batch & st1 & -> & Hs & Hb)].
    + exists []. cbn [snd]. split; [now rewrite app_nil_r | constructor].
    + destruct (limit_reached config (numResults + len batch)).
      * exists [batch]. cbn [snd]. split; [assumption | now repeat constructor].
      * destruct (IH (page + 1) (numResults + len batch) st1) as (new & Hnew & Hall).
        exists (batch :: new). rewrite Hnew, Hs, <- app_assoc.
        split; [reflexivity | now constructor].
Qed.

Lemma FetchPages_indices_sourced (cc : CommonCrawl) (config : RequestConfig)
      (idxs : list string) :
  forall numResults st,
  exists new,
    sent_batches (trace (snd (FetchPages_indices cc config idxs numResults st)))
    = sent_batches (trace st) ++ new
    /\ Forall (Forall (sourced cc)) new.
Proof.
  induction idxs as [|idx idxs IH]; intros numResults st.
  - exists []. split; [now rewrite app_nil_r | constructor].
  - cbn [FetchPages_indices]. unfold bind at 1.
    pose proof (FetchPages_numPages_sent cc config idx st) as Hnum.
    destruct (FetchPages_numPages cc config idx st) as [[pages|msg] st1]; cbn [snd] in Hnum.
    2:{ exists []. cbn [snd]. split; [now rewrite app_nil_r | constructor]. }
    unfold bind at 1.
    destruct (FetchPages_pages_sourced cc config (INDEX_SERVER +++ idx +++ "-index")
                                       (Z.to_nat pages) 0 numResults st1)
      as (new1 & Hnew1 & Hall1).
    destruct (FetchPages_pages cc config (INDEX_SERVER +++ idx +++ "-index")
                               (Z.to_nat pages) 0 numResults st1)
      as [[[stopped m]|msg] st2]; cbn [snd fst] in *.
    2:{ exists new1. split; [congruence | assumption]. }
    destruct stopped.
    + exists new1. unfold ret. cbn [snd]. split; [congruence | assumption].
    + destruct (IH m st2) as (new2 & Hnew2 & Hall2).
      exists (new1 ++ new2). rewrite Hnew2, Hnew1, Hnum, <- app_assoc.
      split; [reflexivity | now apply Forall_app].
Qed.

(** X14. However [FetchPages] ends, a panic included, every record of
    every batch it has sent on the results channel points back to the
    provider, so that its payload can be fetched. *)
Theorem FetchPages_sends_sourced_records (cc : CommonCrawl) (config : RequestConfig)
        (st : State) :
  exists new,
    sent_batches (trace (snd (FetchPages cc config st))) = sent_batches (trace st) ++ new
    /\ Forall (Forall (sourced cc)) new.
Proof.
  unfold FetchPages. unfold bind at 1. unfold lift at 1.
  destruct (filterIndices cc config) as [idxs|msg].
  - apply FetchPages_indices_sourced.
  - exists []. cbn [snd]. split; [now rewrite app_nil_r | constructor].
Qed.

Lemma removelast_cons_cases {A} (a : A) (l : list A) :
  removelast (a :: l) = match l with [] => [] | _ => a :: removelast l end.
Proof. destruct l; reflexivity. Qed.

(** The page loop, entered below the limit: every batch but the last is
    sent below the limit. *)
Lemma FetchPages_pages_below_limit (cc : CommonCrawl) (config : RequestConfig)
      (indexURL : string) (n : nat) :
  forall page numResults st stopped m st',
    limit_reached config numResults = false ->
    FetchPages_pages cc config indexURL n page numResults st = (Ret (stopped, m), st') ->
    exists batches,
      sent_batches (trace st') = sent_batches (trace st) ++ batches
      /\ m = numResults + len (List.concat batches)
      /\ (stopped = false -> limit_reached config m = false)
      /\ limit_reached config (numResults + len (List.concat (removelast batches))) = false.
Proof.
  induction n as [|n IH]; intros page numResults st stopped m st' Hin Hrun.
  - simpl in Hrun. unfold ret in Hrun. injection Hrun as <- <- <-.
    exists []. rewrite app_nil_r.
    replace (numResults + len (List.concat (@nil (list CdxResponse)))) with numResults
      by (unfold len; simpl; lia).
    simpl removelast.
    replace (numResults + len (List.concat (@nil (list CdxResponse)))) with numResults
      by (unfold len; simpl; lia).
    auto.
  - simpl in Hrun. unfold bind at 1 in Hrun.
    destruct (FetchPages_page_cases cc config indexURL page numResults st)
      as [(msg & st1 & Hp & Hs) | (batch & st1 & Hp & Hs & _)];
      rewrite Hp in Hrun; [discriminate|].
    destruct (limit_reached config (numResults + len batch)) eqn:Hlim.
    + unfold ret in Hrun. injection Hrun as <- <- <-.
      exists [batch]. split; [assumption|].
      simpl List.concat. rewrite app_nil_r. split; [reflexivity|].
      split; [discriminate|].
      replace (numResults + len (@nil CdxResponse)) with numResults
        by (unfold len; simpl; lia).
      assumption.
    + destruct (IH _ _ _ _ _ _ Hlim Hrun) as (batches & Htr & Hm & Hgo & Hbelow).
      exists (batch :: batches). rewrite Htr, Hs, <- app_assoc.
      split; [reflexivity|]. rewrite concat_cons, len_app.
      split; [lia|]. split; [assumption|].
      rewrite removelast_cons_cases. destruct batches as [|b bs].
      * replace (numResults + len (List.concat (@nil (list CdxResponse))))
          with numResults by (unfold len; simpl; lia).
        assumption.
      * rewrite concat_cons, len_app. rewrite <- Hbelow. f_equal. lia.
Qed.

Lemma FetchPages_indices_below_limit (cc : CommonCrawl) (config : RequestConfig)
      (idxs : list string) :
  forall numResults st st',
    limit_reached config numResults = false ->
    FetchPages_indices cc config idxs numResults st = (Ret tt, st') ->
    exists batches,
      sent_batches (trace st') = sent_batches (trace st) ++ batches
      /\ limit_reached config (numResults + len (List.concat (removelast batches))) = false.
Proof.
  induction idxs as [|idx idxs IH]; intros numResults st st' Hin Hrun.
  - simpl in Hrun. unfold ret in Hrun. injection Hrun as <-.
    exists []. rewrite app_nil_r. split; [reflexivity|].
    replace (numResults + len (List.concat (removelast (@nil (list CdxResponse)))))
      with numResults by (unfold len; simpl; lia).
    assumption.
  - cbn [FetchPages_indices] in Hrun. unfold bind at 1 in Hrun.
    pose proof (FetchPages_numPages_sent cc config idx st) as Hnum.
    destruct (FetchPages_numPages cc config idx st) as [[pages|msg] st1];
      cbn [snd] in Hnum; [|discriminate].
    unfold bind at 1 in Hrun.
    destruct (FetchPages_pages cc config (INDEX_SERVER +++ idx +++ "-index")
                               (Z.to_nat pages) 0 numResults st1)
      as [[[stopped m]|msg] st2] eqn:Hpages; [|discriminate].
    destruct (FetchPages_pages_below_limit cc config _ _ _ _ _ _ _ _ Hin Hpages)
      as (batches1 & Htr1 & Hm & Hgo & Hbelow1).
    cbn [fst snd] in Hrun. destruct stopped.
    + unfold ret in Hrun. injection Hrun as <-.
      exists batches1. split; [congruence | assumption].
    + destruct (IH m st2 st' (Hgo eq_refl) Hrun) as (batches2 & Htr2 & Hbelow2).
      exists (batches1 ++ batches2). rewrite Htr2, Htr1, Hnum, <- app_assoc.
      split; [reflexivity|].
      destruct batches2 as [|b2 bs2].
      * now rewrite app_nil_r.
      * rewrite removelast_app by discriminate.
        rewrite concat_app, len_app. rewrite <- Hbelow2. f_equal. lia.
Qed.

(** X15. In a run of [FetchPages] that returns, the records of all the
    batches sent before the last one stay below the limit when one is
    set: no page is fetched and no batch is sent once the limit is
    reached. *)
Theorem FetchPages_sends_nothing_past_limit (cc : CommonCrawl) (config : RequestConfig)
        (st st' : State) :
  FetchPages cc config st = (Ret tt, st') ->
  exists batches,
    sent_batches (trace st') = sent_batches (trace st) ++ batches
    /\ limit_reached config (len (List.concat (removelast batches))) = false.
Proof.
  unfold FetchPages. intros Hrun. unfold bind at 1 in Hrun. unfold lift at 1 in Hrun.
  destruct (filterIndices cc config) as [idxs|msg]; [|discriminate].
  assert (Hin : limit_reached config 0 = false).
  { unfold limit_reached. destruct (Limit config); [reflexivity|].
    cbn [N.eqb negb andb]. apply Z.leb_gt. lia. }
  destruct (FetchPages_indices_below_limit cc config idxs 0 st st' Hin Hrun)
    as (batches & Htr & Hbelow).
  exists batches. split; [assumption|]. exact Hbelow.
Qed.

(** ** More on the payload extractor *)

Lemma Atoi_syntax_error_zero (s : string) :
  snd (Atoi s) = Some ErrSyntax -> fst (Atoi s) = 0.
Proof.
  unfold Atoi, ParseInt. destruct s as [|c r]; [reflexivity|]. cbv zeta.
  destruct (ParseUint (if Ascii.eqb c "+" then r
                       else if Ascii.eqb c "-" then r else String c r)) as [un [[|]|]];
    try reflexivity;
    repeat match goal with
           | |- context [if ?b then _ else _] => destruct b
           end; cbn [fst snd]; intros H; try discriminate H; reflexivity.
Qed.

(** X16. A record whose offset is not a number is requested all the same,
    since [GetFile] drops the error of [Atoi]: the range end is then
    length + 1, counted from 0, while the header still starts with the
    offset text as the record has it. *)
Theorem GetFile_offset_not_a_number (cc : CommonCrawl) (page : CdxResponse) (st : State)
        (length : Z) :
  snd (Atoi (Offset page)) = Some ErrSyntax ->
  decimal_integer (Length page) = Some length ->
  minInt <= length < maxInt ->
  issues_range cc page st (length + 1).
Proof.
  intros Hsyn Hlen Hr.
  pose proof (GetFile_request cc page st) as H.
  rewrite (Atoi_syntax_error_zero _ Hsyn) in H.
  rewrite (Atoi_decimal_integer _ _ Hlen) in H by lia.
  cbn [fst] in H. rewrite wrap_int_add_l in H.
  rewrite wrap_int_small in H by lia.
  exact H.
Qed.

(** ** The catalog *)

Lemma trimRightByte_last (s : string) (c : ascii) :
  trimRightByte (s +++ String c EmptyString) c = trimRightByte s c.
Proof.
  induction s as [|a s IH]; simpl.
  - now rewrite Ascii.eqb_refl.
  - now rewrite IH.
Qed.

Lemma quotes_snoc (c : ascii) (m : nat) :
  string_of_list_ascii (repeat c (S m))
  = string_of_list_ascii (repeat c m) +++ String c EmptyString.
Proof.
  induction m as [|m IH]; [reflexivity|].
  change (String c (string_of_list_ascii (repeat c (S m)))
          = String c (string_of_list_ascii (repeat c m) +++ String c EmptyString)).
  now f_equal.
Qed.

Lemma trimRightByte_quotes (t : string) (c : ascii) (m : nat) :
  trimRightByte (t +++ string_of_list_ascii (repeat c m)) c = trimRightByte t c.
Proof.
  induction m as [|m IH].
  - simpl. now rewrite string_app_nil_r.
  - rewrite quotes_snoc, <- string_app_assoc, trimRightByte_last. exact IH.
Qed.

Lemma trimRightByte_only_quotes (c : ascii) (n : nat) :
  trimRightByte (string_of_list_ascii (repeat c n)) c = EmptyString.
Proof.
  induction n as [|n IH]; [reflexivity|].
  cbn [repeat string_of_list_ascii trimRightByte]. rewrite IH.
  now rewrite Ascii.eqb_refl.
Qed.

Lemma trimRightByte_id (s : string) (c : ascii) :
  (forall s', s <> s' +++ String c EmptyString) -> trimRightByte s c = s.
Proof.
  induction s as [|a s IH]; intros H; [reflexivity|].
  cbn [trimRightByte]. rewrite IH.
  - destruct s as [|b s]; [|reflexivity].
    destruct (Ascii.eqb_spec a c) as [->|Hne]; [|reflexivity].
    exfalso. exact (H EmptyString eq_refl).
  - intros s' E. apply (H (String a s')). simpl. now rewrite E.
Qed.

Lemma trimRightByte_app (a s : string) (c : ascii) :
  trimRightByte s c <> EmptyString ->
  trimRightByte (a +++ s) c = a +++ trimRightByte s c.
Proof.
  intros Hne. induction a as [|x a IH]; [reflexivity|].
  cbn [String.append trimRightByte]. rewrite IH.
  destruct (a +++ trimRightByte s c) as [|y t] eqn:E; [|reflexivity].
  exfalso. destruct a; simpl in E; [contradiction | discriminate].
Qed.

Lemma trimLeftByte_quotes (s : string) (c : ascii) (n : nat) :
  trimLeftByte (string_of_list_ascii (repeat c n) +++ s) c = trimLeftByte s c.
Proof.
  induction n as [|n IH]; [reflexivity|].
  cbn [repeat string_of_list_ascii String.append trimLeftByte].
  now rewrite Ascii.eqb_refl.
Qed.

Lemma trimLeftByte_id (s : string) (c : ascii) :
  (forall s', s <> String c s') -> trimLeftByte s c = s.
Proof.
  destruct s as [|a s]; intros H; [reflexivity|].
  cbn [trimLeftByte]. destruct (Ascii.eqb_spec a c) as [->|Hne]; [|reflexivity].
  exfalso. exact (H s eq_refl).
Qed.

(** [Trim] takes away all the bytes [c] around a text that neither begins
    nor ends with one. *)
Lemma Trim_quotes (s : string) (c : ascii) (n m : nat) :
  (forall s', s <> String c s') ->
  (forall s', s <> s' +++ String c EmptyString) ->
  Trim (string_of_list_ascii (repeat c n) +++ s +++ string_of_list_ascii (repeat c m)) c
  = s.
Proof.
  intros Hhead Hlast. unfold Trim.
  rewrite <- string_app_assoc, trimRightByte_quotes.
  destruct s as [|a s].
  - rewrite string_app_nil_r, trimRightByte_only_quotes. reflexivity.
  - rewrite trimRightByte_app; rewrite (trimRightByte_id _ _ Hlast); [|discriminate].
    rewrite trimLeftByte_quotes. now apply trimLeftByte_id.
Qed.

(** X17. [UnmarshalJSON] parses the text it is given without the double
    quotes around it, however many there are on either side.  When that
    text does not parse, it returns the error of the parser and leaves
    the value it was given; when it parses, it returns no error and the
    time parsed. *)
Theorem UnmarshalJSON_quotes (ct : Time) (s : string) (n m : nat) :
  (forall s', s <> String quote s') ->
  (forall s', s <> s' +++ String quote EmptyString) ->
  UnmarshalJSON ct
    (list_byte_of_string
       (string_of_list_ascii (repeat quote n) +++ s
        +++ string_of_list_ascii (repeat quote m)))
  = match time_Parse s with
    | inl err => (ct, Some err)
    | inr t => (t, None)
    end.
Proof.
  intros Hhead Hlast. unfold UnmarshalJSON. cbv zeta.
  rewrite string_of_list_byte_of_string.
  now rewrite Trim_quotes.
Qed.

(** X18. [New] returns either a provider and no error, or an error and no
    provider.  The provider has the timeout and the retries it was asked
    for, and as its catalog the entries decoded from the body that the
    catalog request returned, be they none. *)
Theorem New_provider_or_error (timeout retries : Z) (st st' : State)
        (p : option CommonCrawl) (e : option error) :
  New timeout retries st = (Ret (p, e), st') ->
  match p with
  | Some cc =>
    e = None /\ MaxTimeout cc = timeout /\ MaxRetries cc = retries
    /\ exists body,
        Get (INDEX_SERVER +++ "collinfo.json") timeout retries st = (Ret (body, None), st')
        /\ Unmarshal_Indexes body = (indexes cc, None)
  | None => e <> None
  end.
Proof.
  unfold New, GetIndexes. cbv zeta. cbn [MaxTimeout MaxRetries].
  intros Hrun. unfold bind at 1 in Hrun. unfold bind at 1 in Hrun.
  destruct (Get (INDEX_SERVER +++ "collinfo.json") timeout retries st)
    as [[[body err]|msg] st1]; [|discriminate].
  cbn [fst snd] in Hrun. destruct err as [err|].
  - unfold ret in Hrun. cbn [fst snd] in Hrun. injection Hrun as <- <- _. discriminate.
  - destruct (Unmarshal_Indexes body) as [idxs [uerr|]] eqn:Hdec;
      unfold ret in Hrun; cbn [fst snd] in Hrun; injection Hrun as <- <- <-.
    + discriminate.
    + repeat split. exists body. split; [reflexivity | exact Hdec].
Qed.

(** X19. Nothing in [New] asks for a catalog that is not empty: when the
    server answers with an empty array, [New] returns a provider, and on
    that provider [GetPages], [GetNumPages] and, without date bounds,
    [FetchPages] panic on the first snapshot before any request. *)
Theorem New_empty_catalog_panics (timeout retries : Z) (st st' : State) (body : list byte) :
  Get (INDEX_SERVER +++ "collinfo.json") timeout retries st = (Ret (body, None), st') ->
  Unmarshal_Indexes body = ([], None) ->
  exists cc,
    New timeout retries st = (Ret (Some cc, None), st')
    /\ forall (config : RequestConfig) (url : string) (st2 : State),
        GetPages cc config st2 = (Panic index_out_of_range, st2)
        /\ GetNumPages cc url st2 = (Panic index_out_of_range, st2)
        /\ (date_bounds_unset config = true ->
            FetchPages cc config st2 = (Panic index_out_of_range, st2)).
Proof.
  intros Hget Hdec. exists (mkCommonCrawl timeout retries []). split.
  - unfold New, GetIndexes. cbv zeta. cbn [MaxTimeout MaxRetries].
    unfold bind at 1. unfold bind at 1. rewrite Hget. cbn [fst snd].
    rewrite Hdec. reflexivity.
  - intros config url st2. split; [reflexivity|]. split; [reflexivity|].
    intros Hunset. unfold FetchPages, filterIndices.
    unfold date_bounds_unset in Hunset. rewrite Hunset. reflexivity.
Qed.

(** ** The two orchestrators agree *)

(** What the retry loop does depends on the world alone; the trace only
    grows. *)
Lemma Get_attempts_frame (url : string) (timeout : Z) (n : nat) :
  forall i last0 w,
  exists o w' ev,
    forall tr,
      Get_attempts n i url timeout last0 (mkState w tr) = (o, mkState w' (tr ++ ev)).
Proof.
  induction n as [|n IH]; intros i last0 w.
  - exists (Ret last0), w, []. intros tr. simpl. unfold ret. now rewrite app_nil_r.
  - destruct (http_client_Get url timeout w) as [[resp err] w1] eqn:Hget.
    assert (Hsleep : forall r,
               exists o w' ev,
                 forall tr,
                   bind (Sleep (i + 1))
                        (fun _ => Get_attempts n (i + 1) url timeout r)
                        (mkState w1 (tr ++ [EvHttpGet url timeout]))
                   = (o, mkState w' (tr ++ ev))).
    { intros r. destruct (IH (i + 1) r w1) as (o & w' & ev & H).
      exists o, w', (EvHttpGet url timeout :: EvSleep (i + 1) :: ev). intros tr.
      unfold bind, Sleep, emit. cbn [world trace]. rewrite H.
      rewrite <- !app_assoc. reflexivity. }
    assert (Hstep : forall tr,
               Get_attempts (S n) i url timeout last0 (mkState w tr)
               = match err with
                 | None =>
                   match resp with
                   | None => panic nil_dereference
                   | Some rsp =>
                     if RespStatus rsp =? 200 then ret (resp, err)
                     else bind (Sleep (i + 1))
                               (fun _ => Get_attempts n (i + 1) url timeout (resp, err))
                   end
                 | Some _ =>
                   bind (Sleep (i + 1))
                        (fun _ => Get_attempts n (i + 1) url timeout (resp, err))
                 end (mkState w1 (tr ++ [EvHttpGet url timeout]))).
    { intros tr. simpl. unfold bind at 1. unfold emit at 1.
      unfold bind at 1. unfold call at 1. cbn [world trace]. rewrite Hget.
      reflexivity. }
    destruct err as [e|].
    + destruct (Hsleep (resp, Some e)) as (o & w' & ev & H).
      exists o, w', ev. intros tr. rewrite Hstep. apply H.
    + destruct resp as [rsp|].
      * destruct (RespStatus rsp =? 200) eqn:E.
        -- exists (Ret (Some rsp, None)), w1, [EvHttpGet url timeout]. intros tr.
           rewrite Hstep. reflexivity.
        -- destruct (Hsleep (Some rsp, None)) as (o & w' & ev & H).
           exists o, w', ev. intros tr. rewrite Hstep. apply H.
      * exists (Panic nil_dereference), w1, [EvHttpGet url timeout]. intros tr.
        rewrite Hstep. reflexivity.
Qed.

Lemma Get_frame (url : string) (timeout maxRetries : Z) (w : World) :
  exists o w' ev,
    forall tr, Get url timeout maxRetries (mkState w tr) = (o, mkState w' (tr ++ ev)).
Proof.
  destruct (Get_attempts_frame url timeout (Z.to_nat maxRetries) 0 (None, None) w)
    as (o & w' & ev & H).
  destruct o as [r|msg].
  - destruct (fst r) as [rsp|] eqn:E.
    + exists (Ret (RespBody rsp)), w', ev. intros tr.
      unfold Get, bind. rewrite H, E. reflexivity.
    + exists (Panic nil_dereference), w', ev. intros tr.
      unfold Get, bind. rewrite H, E. reflexivity.
  - exists (Panic msg), w', ev. intros tr. unfold Get, bind. now rewrite H.
Qed.

(** The page loops of the two orchestrators, run on the same world: when
    the bounded one returns without error, the streaming one has sent the
    same records. *)
Lemma page_loops_agree (cc : CommonCrawl) (config : RequestConfig) (index : string)
      (n : nat) :
  forall page results numResults w tr recs st',
    GetPagesIndex_loop cc config index n page results numResults (mkState w tr)
    = (Ret (recs, None), st') ->
    forall tr2,
    exists stopped m st2 batches,
      FetchPages_pages cc config (INDEX_SERVER +++ index +++ "-index") n page numResults
                       (mkState w tr2)
      = (Ret (stopped, m), st2)
      /\ world st2 = world st'
      /\ sent_batches (trace st2) = sent_batches tr2 ++ batches
      /\ recs = results ++ List.concat batches.
Proof.
  induction n as [|n IH]; intros page results numResults w tr recs st' Hrun tr2.
  - simpl in Hrun. unfold ret in Hrun. injection Hrun as <- <-.
    exists false, numResults, (mkState w tr2), [].
    repeat split; simpl; now rewrite app_nil_r.
  - cbn [GetPagesIndex_loop] in Hrun. cbv zeta in Hrun.
    destruct (Get_frame (GetUrl config (INDEX_SERVER +++ index +++ "-index") page)
                        (MaxTimeout cc) (MaxRetries cc) w) as (o & w1 & ev & Hget).
    unfold bind at 1 in Hrun. rewrite (Hget tr) in Hrun.
    destruct o as [[body err]|msg]; [|discriminate].
    cbn [fst snd] in Hrun. destruct err as [err|]; [discriminate|].
    unfold bind at 1 in Hrun. unfold lift at 1 in Hrun.
    destruct (ParseResponse_total cc body) as (batch & perr & Hparse & _).
    rewrite Hparse in Hrun. cbn [fst snd] in Hrun.
    destruct perr as [perr|]; [discriminate|].
    rewrite (FetchPages_pages_step cc config _ n page numResults (mkState w tr2)
               (mkState w1 (tr2 ++ ev)) body None None batch (Hget tr2) Hparse).
    assert (Hsent : sent_batches (tr2 ++ ev) = sent_batches tr2).
    { pose proof (Get_sent (GetUrl config (INDEX_SERVER +++ index +++ "-index") page)
                           (MaxTimeout cc) (MaxRetries cc) (mkState w tr2)) as H.
      now rewrite (Hget tr2) in H. }
    assert (Hafter : sent_batches (trace (after_page (mkState w1 (tr2 ++ ev)) None None batch))
                     = sent_batches tr2 ++ [batch]).
    { unfold after_page. cbn [trace world error_events app].
      now rewrite sent_batches_app, Hsent. }
    destruct (limit_reached config (numResults + len batch)).
    + unfold ret in Hrun. injection Hrun as <- <-.
      exists true, (numResults + len batch),
        (after_page (mkState w1 (tr2 ++ ev)) None None batch), [batch].
      split; [reflexivity|]. split; [reflexivity|]. split; [exact Hafter|].
      simpl. now rewrite app_nil_r.
    + destruct (IH _ _ _ _ _ _ _ Hrun
                   (trace (after_page (mkState w1 (tr2 ++ ev)) None None batch)))
        as (stopped & m & st2 & batches & Hpages & Hw & Htr & Hrecs).
      exists stopped, m, st2, (batch :: batches).
      split; [exact Hpages|]. split; [exact Hw|]. split.
      * rewrite Htr, Hafter, <- app_assoc. reflexivity.
      * rewrite Hrecs, concat_cons, app_assoc. reflexivity.
Qed.

(** X20. Without date bounds the two orchestrators agree: from the same
    state, when [GetPages] returns its records without an error,
    [FetchPages] returns too, leaves the world as [GetPages] leaves it,
    and the batches it has sent hold, put end to end, the records that
    [GetPages] returns. *)
Theorem FetchPages_agrees_with_GetPages (cc : CommonCrawl) (config : RequestConfig)
        (st st1 : State) (recs : list CdxResponse) :
  date_bounds_unset config = true ->
  GetPages cc config st = (Ret (recs, None), st1) ->
  exists st2 batches,
    FetchPages cc config st = (Ret tt, st2)
    /\ world st2 = world st1
    /\ sent_batches (trace st2) = sent_batches (trace st) ++ batches
    /\ List.concat batches = recs.
Proof.
  intros Hunset Hrun.
  unfold GetPages in Hrun. unfold bind at 1 in Hrun. unfold lift at 1 in Hrun.
  unfold FetchPages, filterIndices. unfold date_bounds_unset in Hunset. rewrite Hunset.
  destruct (first_index cc) as [first|msg]; [|discriminate].
  unfold bind at 1. unfold lift at 1. cbn [FetchPages_indices].
  unfold GetPagesIndex in Hrun. unfold bind at 1 in Hrun.
  unfold bind at 1. unfold FetchPages_numPages.
  destruct (SinglePage config).
  - unfold ret at 1 in Hrun. cbn [fst snd] in Hrun. unfold ret at 1.
    destruct st as [w tr].
    destruct (page_loops_agree cc config (Id first) _ _ _ _ _ _ _ _ Hrun tr)
      as (stopped & m & st2 & batches & Hpages & Hw & Htr & Hrecs).
    exists st2, batches. unfold bind at 1. rewrite Hpages. cbn [fst snd].
    split; [now destruct stopped|]. split; [exact Hw|]. split; [exact Htr|].
    now rewrite Hrecs.
  - pose proof (GetNumPagesIndex_sent cc (URL config) (Id first) st) as Hnum.
    unfold bind at 1.
    destruct (GetNumPagesIndex cc (URL config) (Id first) st) as [[[pages perr]|msg] stc];
      [|discriminate].
    cbn [fst snd] in *. destruct perr as [perr|]; [discriminate|].
    unfold bind at 1. rewrite report_run. unfold ret at 1.
    rewrite app_nil_r. destruct stc as [wc trc]. cbn [world trace] in *.
    destruct (page_loops_agree cc config (Id first) _ _ _ _ _ _ _ _ Hrun trc)
      as (stopped & m & st2 & batches & Hpages & Hw & Htr & Hrecs).
    exists st2, batches. unfold bind at 1. rewrite Hpages. cbn [fst snd].
    split; [now destruct stopped|]. split; [exact Hw|].
    split; [now rewrite Htr, Hnum|]. now rewrite Hrecs.
Qed.

(** ** The server is down *)

(** X21. With the index server unreachable none of the entry points
    reports an error: [New], [GetPagesIndex] and, once a snapshot is
    selected, [FetchPages] all end in the nil dereference of [Get]. *)
Theorem entry_points_panic_when_unreachable (cc : CommonCrawl) (config : RequestConfig)
        (index : string) (retries : Z) (st : State) :
  (forall url, unreachable url (MaxTimeout cc)) ->
  fst (New (MaxTimeout cc) retries st) = Panic nil_dereference
  /\ fst (GetPagesIndex cc config index st) = Panic nil_dereference
  /\ forall idx rest,
      filterIndices cc config = Ret (idx :: rest) ->
      fst (FetchPages cc config st) = Panic nil_dereference.
Proof.
  intros Hdown.
  assert (Hget : forall url r s,
             exists s', Get url (MaxTimeout cc) r s = (Panic nil_dereference, s')).
  { intros url r s.
    pose proof (Get_unreachable_panics url (MaxTimeout cc) r s (Hdown url)) as H.
    destruct (Get url (MaxTimeout cc) r s) as [o s']. exists s'. cbn [fst] in H.
    now rewrite H. }
  assert (Hnum : forall url idx s,
             exists s', GetNumPagesIndex cc url idx s = (Panic nil_dereference, s')).
  { intros url idx s. unfold GetNumPagesIndex.
    match goal with
    | |- context [Get ?u ?t ?r] => destruct (Hget u r s) as (s' & H)
    end.
    exists s'. now rewrite (bind_Panic _ _ _ _ _ H). }
  split; [|split].
  - unfold New, GetIndexes. cbv zeta. cbn [MaxTimeout MaxRetries].
    destruct (Hget (INDEX_SERVER +++ "collinfo.json") retries st) as (s' & H).
    unfold bind at 1. now rewrite (bind_Panic _ _ _ _ _ H).
  - unfold GetPagesIndex. destruct (SinglePage config).
    + unfold bind at 1. unfold ret at 1. cbn [fst snd].
      change (Z.to_nat 1) with 1%nat. cbn [GetPagesIndex_loop]. cbv zeta.
      match goal with
      | |- context [Get ?u ?t ?r] => destruct (Hget u r st) as (s' & H)
      end.
      now rewrite (bind_Panic _ _ _ _ _ H).
    + destruct (Hnum (URL config) index st) as (s' & H).
      now rewrite (bind_Panic _ _ _ _ _ H).
  - intros idx rest Hsel. unfold FetchPages. rewrite Hsel.
    unfold bind at 1. unfold lift at 1. cbn [FetchPages_indices].
    unfold FetchPages_numPages. destruct (SinglePage config).
    + unfold bind at 1. unfold ret at 1.
      change (Z.to_nat 1) with 1%nat. cbn [FetchPages_pages].
      unfold bind at 1. unfold bind at 1. unfold FetchPages_page.
      match goal with
      | |- context [Get ?u ?t ?r] => destruct (Hget u r st) as (s' & H)
      end.
      now rewrite (bind_Panic _ _ _ _ _ H).
    + destruct (Hnum (URL config) idx st) as (s' & H).
      unfold bind at 1. unfold bind at 1. now rewrite H.
Qed.

(** ** A line without its newline *)

Lemma input_lines_one_line (resp : list byte) :
  resp <> [] -> is_line resp -> input_lines resp = [resp].
Proof.
  intros Hne Hline. destruct (exists_last Hne) as (l' & a & E).
  unfold input_lines. destruct resp as [|x xs]; [congruence|].
  rewrite E in *. rewrite last_last.
  destruct (Byte.eqb a newline) eqn:Ea.
  - apply Byte.byte_dec_bl in Ea. subst a. exfalso. apply Hline.
    apply in_or_app. right. now left.
  - now apply Split_line.
Qed.

(** Whatever the decoder, a last line that only decodes once its last
    byte is cut off is accepted: the input holds a line that does not
    decode, and [ParseResponse] returns a record and no error. *)
Lemma ParseResponse_cut_line_accepted (cc : CommonCrawl) (l : list byte) (b : byte)
      (r : CdxResponse) (err : error) :
  is_line (l ++ [b]) ->
  Unmarshal_Cdx l = inr r ->
  Unmarshal_Cdx (l ++ [b]) = inl err ->
  ParseResponse cc (l ++ [b]) = Ret ([withSource cc r], None)
  /\ ~ malformed_line_reported cc (l ++ [b]).
Proof.
  intros Hline Hl Hbad.
  assert (Hl_line : is_line l).
  { intros Hin. apply Hline. apply in_or_app. now left. }
  assert (Hrun : ParseResponse cc (l ++ [b]) = Ret ([withSource cc r], None)).
  { rewrite ParseResponse_nonempty by (destruct l; discriminate).
    rewrite removelast_last, (Split_line l Hl_line).
    cbn [ParseResponse_lines]. rewrite Hl. reflexivity. }
  split; [exact Hrun|].
  intros Hclaim.
  assert (Hlines : input_lines (l ++ [b]) = [] ++ (l ++ [b]) :: [])
    by (apply input_lines_one_line; [destruct l; discriminate | assumption]).
  specialize (Hclaim [] [] (l ++ [b]) err Hlines (Forall_nil _) Hbad).
  rewrite Hrun in Hclaim. discriminate Hclaim.
Qed.

Lemma ends_with_last (s s' : string) (c : ascii) :
  s = s' +++ String c EmptyString ->
  last (list_ascii_of_string s) c = c.
Proof.
  intros ->. induction s' as [|a s' IH]; [reflexivity|].
  cbn [String.append list_ascii_of_string].
  destruct (list_ascii_of_string (s' +++ String c EmptyString)) eqn:E.
  - destruct s'; discriminate E.
  - rewrite <- E. cbn [last]. rewrite E in *. exact IH.
Qed.

End Coverage.

(** * Further runs in the scripted world *)

Section CoverageRuns.
Import Script ScriptCatalog.

Lemma Get_succeeds_after_failures_witness :
  answers collinfo 5 (world (start [refused; answer 503 "busy"; answer 200 "[]"]))
          ([refused; answer 503 "busy"] ++ [(Some (mkResponse 200 (bytes "[]", None)), None)])
          []
  /\ forallb attempt_fails [refused; answer 503 "busy"] = true
  /\ RespStatus (mkResponse 200 (bytes "[]", None)) = 200
  /\ Z.of_nat (List.length [refused; answer 503 "busy"]) < 3
  /\ Get collinfo 5 3 (start [refused; answer 503 "busy"; answer 200 "[]"])
     = (Ret (bytes "[]", None),
        mkState [] [EvHttpGet collinfo 5; EvSleep 1; EvHttpGet collinfo 5; EvSleep 2;
                    EvHttpGet collinfo 5]).
Proof.
  assert (H1 : answers collinfo 5
                       (world (start [refused; answer 503 "busy"; answer 200 "[]"]))
                       ([refused; answer 503 "busy"]
                          ++ [(Some (mkResponse 200 (bytes "[]", None)), None)]) []).
  { repeat (eapply answers_cons; [reflexivity|]). apply answers_nil. }
  assert (H2 : forallb attempt_fails [refused; answer 503 "busy"] = true) by reflexivity.
  assert (H3 : RespStatus (mkResponse 200 (bytes "[]", None)) = 200) by reflexivity.
  assert (H4 : Z.of_nat (List.length [refused; answer 503 "busy"]) < 3) by reflexivity.
  repeat (split; [assumption|]).
  exact (Get_succeeds_after_failures collinfo 5 3 _ _ _ _ H1 H2 H3 H4).
Defined.

Lemma Get_exhausted_returns_last_body_witness :
  answers collinfo 5 (world (start [refused; answer 404 "not found"]))
          [refused; answer 404 "not found"] []
  /\ forallb attempt_fails [refused; answer 404 "not found"] = true
  /\ Z.of_nat (List.length [refused; answer 404 "not found"]) = 2
  /\ last [refused; answer 404 "not found"] (None, None)
     = (Some (mkResponse 404 (bytes "not found", None)), None)
  /\ Get collinfo 5 2 (start [refused; answer 404 "not found"])
     = (Ret (bytes "not found", None),
        mkState [] [EvHttpGet collinfo 5; EvSleep 1; EvHttpGet collinfo 5; EvSleep 2]).
Proof.
  assert (H1 : answers collinfo 5 (world (start [refused; answer 404 "not found"]))
                       [refused; answer 404 "not found"] []).
  { repeat (eapply answers_cons; [reflexivity|]). apply answers_nil. }
  assert (H2 : forallb attempt_fails [refused; answer 404 "not found"] = true)
    by reflexivity.
  assert (H3 : Z.of_nat (List.length [refused; answer 404 "not found"]) = 2) by reflexivity.
  assert (H4 : last [refused; answer 404 "not found"] (None, None)
               = (Some (mkResponse 404 (bytes "not found", None)), None)) by reflexivity.
  repeat (split; [assumption|]).
  exact (Get_exhausted_returns_last_body collinfo 5 2 _ _ _ _ _ H1 H2 H3 H4).
Defined.

Lemma DoRequest_success_iff_witness :
  uarand_GetRandom (world (start [])) = ("Mozilla/5.0", [])
  /\ fasthttp_DoTimeout "https://data.commoncrawl.org/a"
                        (request_headers "Mozilla/5.0" [("Range", "bytes=0-1")]) 5 []
     = ((mkFastResponse 200 (Some []), None), [])
  /\ exists body e,
      DoRequest "https://data.commoncrawl.org/a" 5 [("Range", "bytes=0-1")] (start [])
      = (Ret (body, e),
         mkState [] ([] ++ [EvDoRequest "https://data.commoncrawl.org/a"
                                        (request_headers "Mozilla/5.0"
                                                         [("Range", "bytes=0-1")]) 5]))
      /\ (e = None <->
          @None error = None /\ 200 <> 500 /\ 200 <> 503
          /\ exists b, Some (@nil byte) = Some b /\ (b <> [] \/ 200 = 200))
      /\ (e = None -> Some (@nil byte) = Some body).
Proof.
  assert (H1 : uarand_GetRandom (world (start [])) = ("Mozilla/5.0", [])) by reflexivity.
  assert (H2 : fasthttp_DoTimeout "https://data.commoncrawl.org/a"
                 (request_headers "Mozilla/5.0" [("Range", "bytes=0-1")]) 5 []
               = ((mkFastResponse 200 (Some []), None), [])) by reflexivity.
  split; [exact H1|]. split; [exact H2|].
  exact (DoRequest_success_iff "https://data.commoncrawl.org/a" 5 [("Range", "bytes=0-1")]
           (start []) _ _ _ _ _ H1 H2).
Defined.

Lemma GetUrl_page_distinguishes_witness :
  SinglePage query_window = true
  /\ GetUrl query_window "https://index.commoncrawl.org/CC-MAIN-2024-10-index" 0
     = GetUrl query_window "https://index.commoncrawl.org/CC-MAIN-2024-10-index" 7
  /\ SinglePage query = false
  /\ (GetUrl query "https://index.commoncrawl.org/CC-MAIN-2024-10-index" 4
      = GetUrl query "https://index.commoncrawl.org/CC-MAIN-2024-10-index" 4 -> 4 = 4).
Proof.
  assert (H1 : SinglePage query_window = true) by reflexivity.
  assert (H2 : SinglePage query = false) by reflexivity.
  split; [exact H1|]. split; [|split; [exact H2|]].
  - exact (proj1 (GetUrl_page_distinguishes query_window _ 0 7) H1).
  - exact (proj2 (GetUrl_page_distinguishes query _ 4 4) H2).
Defined.

Lemma filterIndices_inside_window_witness :
  date_bounds_unset query_window = false
  /\ exists ids,
      filterIndices cc1 query_window = Ret ids
      /\ forall id,
          In id ids <->
          exists idx, In idx (indexes cc1) /\ Id idx = id
                      /\ inside_window query_window idx = true.
Proof.
  assert (H1 : date_bounds_unset query_window = false) by reflexivity.
  split; [exact H1|].
  exact (filterIndices_inside_window cc1 query_window H1).
Defined.

Lemma FetchPages_nothing_selected_witness :
  date_bounds_unset query_no_match = false
  /\ (forall idx, In idx (indexes cc1) -> inside_window query_no_match idx = false)
  /\ FetchPages cc1 query_no_match st_start = (Ret tt, st_start).
Proof.
  assert (H1 : date_bounds_unset query_no_match = false) by reflexivity.
  assert (H2 : forall idx, In idx (indexes cc1) -> inside_window query_no_match idx = false).
  { intros idx [<-|[<-|[<-|[]]]]; reflexivity. }
  split; [exact H1|]. split; [exact H2|].
  exact (FetchPages_nothing_selected cc1 query_no_match st_start H1 H2).
Defined.

Lemma GetPagesIndex_records_sourced_witness :
  GetPagesIndex cc1 query newest st_start
  = (Ret ([record_a; record_b], Some "[GetPagesIndex] Request error: unexpected EOF"),
     st_page1)
  /\ Forall (sourced cc1) [record_a; record_b].
Proof.
  assert (H1 : GetPagesIndex cc1 query newest st_start
               = (Ret ([record_a; record_b],
                       Some "[GetPagesIndex] Request error: unexpected EOF"), st_page1))
    by reflexivity.
  split; [exact H1|].
  exact (GetPagesIndex_records_sourced cc1 query newest _ _ _ _ H1).
Defined.

Lemma GetPagesIndex_returns_all_pages_witness :
  count_pages cc1 query newest st_both = (Ret (2, None), st_both_counted)
  /\ pages_done cc1 query newest 0 st_both_counted
                [[record_a; record_b]; [record_c]] st_both_page1
  /\ List.length [[record_a; record_b]; [record_c]] = Z.to_nat 2
  /\ limit_reached query
                   (len (List.concat (removelast [[record_a; record_b]; [record_c]])))
     = false
  /\ GetPagesIndex cc1 query newest st_both
     = (Ret ([record_a; record_b; record_c], None), st_both_page1).
Proof.
  assert (H1 : count_pages cc1 query newest st_both = (Ret (2, None), st_both_counted))
    by reflexivity.
  assert (H2 : pages_done cc1 query newest 0 st_both_counted
                          [[record_a; record_b]; [record_c]] st_both_page1).
  { eapply pages_done_cons.
    - exists (ndjson [line_a; line_b]). split; reflexivity.
    - eapply pages_done_cons; [|apply pages_done_nil].
      exists (ndjson [line_c]). split; reflexivity. }
  assert (H3 : List.length [[record_a; record_b]; [record_c]] = Z.to_nat 2) by reflexivity.
  assert (H4 : limit_reached query
                 (len (List.concat (removelast [[record_a; record_b]; [record_c]])))
               = false) by reflexivity.
  repeat (split; [assumption|]).
  exact (GetPagesIndex_returns_all_pages cc1 query newest _ _ _ 2 _ H1 H2 H3 H4).
Defined.

Lemma GetPagesIndex_stops_at_limit_witness :
  count_pages cc1 query_limit newest st_both = (Ret (2, None), st_limit_counted)
  /\ pages_done cc1 query_limit newest 0 st_limit_counted [[record_a; record_b]]
                st_limit_page0
  /\ [[record_a; record_b]] <> []
  /\ len [[record_a; record_b]] <= 2
  /\ limit_reached query_limit (len (List.concat (removelast [[record_a; record_b]])))
     = false
  /\ limit_reached query_limit (len (List.concat [[record_a; record_b]])) = true
  /\ GetPagesIndex cc1 query_limit newest st_both
     = (Ret ([record_a; record_b], None), st_limit_page0).
Proof.
  assert (H1 : count_pages cc1 query_limit newest st_both
               = (Ret (2, None), st_limit_counted)) by reflexivity.
  assert (H2 : pages_done cc1 query_limit newest 0 st_limit_counted [[record_a; record_b]]
                          st_limit_page0).
  { eapply pages_done_cons; [|apply pages_done_nil].
    exists (ndjson [line_a; line_b]). split; reflexivity. }
  assert (H3 : [[record_a; record_b]] <> []) by discriminate.
  assert (H4 : len [[record_a; record_b]] <= 2) by (vm_compute; discriminate).
  assert (H5 : limit_reached query_limit
                 (len (List.concat (removelast [[record_a; record_b]]))) = false)
    by reflexivity.
  assert (H6 : limit_reached query_limit (len (List.concat [[record_a; record_b]])) = true)
    by reflexivity.
  repeat (split; [assumption|]).
  exact (proj1 (GetPagesIndex_stops_at_limit cc1 query_limit newest _ _ _ 2 _
                  H1 H2 H3 H4 H5 H6)).
Defined.

Lemma FetchPages_sends_nothing_past_limit_witness :
  FetchPages cc1 query_limit st_both = (Ret tt, snd (FetchPages cc1 query_limit st_both))
  /\ exists batches,
      sent_batches (trace (snd (FetchPages cc1 query_limit st_both)))
      = sent_batches (trace st_both) ++ batches
      /\ limit_reached query_limit (len (List.concat (removelast batches))) = false.
Proof.
  assert (H1 : FetchPages cc1 query_limit st_both
               = (Ret tt, snd (FetchPages cc1 query_limit st_both))) by reflexivity.
  split; [exact H1|].
  exact (FetchPages_sends_nothing_past_limit cc1 query_limit st_both _ H1).
Defined.

Example FetchPages_limit_run :
  sent_batches (trace (snd (FetchPages cc1 query_limit st_both)))
  = [[record_a; record_b]].
Proof. reflexivity. Qed.

Lemma GetFile_offset_not_a_number_witness :
  snd (Atoi (Offset (capture "abc" "50"))) = Some ErrSyntax
  /\ decimal_integer (Length (capture "abc" "50")) = Some 50
  /\ minInt <= 50 < maxInt
  /\ trace (snd (GetFile cc1 (capture "abc" "50") (start [])))
     = [EvDoRequest "https://data.commoncrawl.org/crawl-data/segment.warc.gz"
                    [("User-Agent", "Mozilla/5.0"); ("Range", "bytes=abc-51")] 5].
Proof.
  assert (H1 : snd (Atoi (Offset (capture "abc" "50"))) = Some ErrSyntax) by reflexivity.
  assert (H2 : decimal_integer (Length (capture "abc" "50")) = Some 50) by reflexivity.
  assert (H3 : minInt <= 50 < maxInt) by (vm_compute; split; [discriminate | reflexivity]).
  repeat (split; [assumption|]).
  exact (GetFile_offset_not_a_number cc1 (capture "abc" "50") (start []) 50 H1 H2 H3).
Defined.

Lemma New_provider_or_error_witness :
  New 5 1 (start [answer 200 "collinfo"])
  = (Ret (Some cc1, None), mkState [] [EvHttpGet collinfo 5])
  /\ MaxTimeout cc1 = 5 /\ MaxRetries cc1 = 1.
Proof.
  assert (H1 : New 5 1 (start [answer 200 "collinfo"])
               = (Ret (Some cc1, None), mkState [] [EvHttpGet collinfo 5])) by reflexivity.
  split; [exact H1|].
  pose proof (New_provider_or_error 5 1 _ _ _ _ H1) as (_ & H2 & H3 & _).
  split; assumption.
Defined.

Lemma New_empty_catalog_panics_witness :
  Get (INDEX_SERVER +++ "collinfo.json") 5 1 (start [answer 200 "[]"])
  = (Ret (bytes "[]", None), mkState [] [EvHttpGet collinfo 5])
  /\ Unmarshal_Indexes (bytes "[]") = ([], None)
  /\ exists cc,
      New 5 1 (start [answer 200 "[]"])
      = (Ret (Some cc, None), mkState [] [EvHttpGet collinfo 5])
      /\ forall (config : RequestConfig) (url : string) (st2 : State),
          GetPages cc config st2 = (Panic index_out_of_range, st2)
          /\ GetNumPages cc url st2 = (Panic index_out_of_range, st2)
          /\ (date_bounds_unset config = true ->
              FetchPages cc config st2 = (Panic index_out_of_range, st2)).
Proof.
  assert (H1 : Get (INDEX_SERVER +++ "collinfo.json") 5 1 (start [answer 200 "[]"])
               = (Ret (bytes "[]", None), mkState [] [EvHttpGet collinfo 5]))
    by reflexivity.
  assert (H2 : Unmarshal_Indexes (bytes "[]") = ([], None)) by reflexivity.
  split; [exact H1|]. split; [exact H2|].
  exact (New_empty_catalog_panics 5 1 _ _ _ H1 H2).
Defined.

Lemma FetchPages_agrees_with_GetPages_witness :
  date_bounds_unset query = true
  /\ GetPages cc1 query st_both
     = (Ret ([record_a; record_b; record_c], None), st_both_page1)
  /\ exists st2 batches,
      FetchPages cc1 query st_both = (Ret tt, st2)
      /\ world st2 = world st_both_page1
      /\ sent_batches (trace st2) = sent_batches (trace st_both) ++ batches
      /\ List.concat batches = [record_a; record_b; record_c].
Proof.
  assert (H1 : date_bounds_unset query = true) by reflexivity.
  assert (H2 : GetPages cc1 query st_both
               = (Ret ([record_a; record_b; record_c], None), st_both_page1))
    by reflexivity.
  split; [exact H1|]. split; [exact H2|].
  exact (FetchPages_agrees_with_GetPages cc1 query st_both st_both_page1 _ H1 H2).
Defined.

Lemma entry_points_panic_when_unreachable_witness :
  (forall url, unreachable (ext := Offline.down) url (MaxTimeout cc1))
  /\ fst (New (ext := Offline.down) (MaxTimeout cc1) 3 Offline.begin)
     = Panic nil_dereference
  /\ fst (GetPagesIndex (ext := Offline.down) cc1 query newest Offline.begin)
     = Panic nil_dereference
  /\ filterIndices cc1 query = Ret ["CC-MAIN-2024-10"]
  /\ fst (FetchPages (ext := Offline.down) cc1 query Offline.begin)
     = Panic nil_dereference.
Proof.
  assert (H1 : forall url, unreachable (ext := Offline.down) url (MaxTimeout cc1)).
  { intros url w. eexists _, _. reflexivity. }
  assert (H2 : filterIndices cc1 query = Ret ["CC-MAIN-2024-10"]) by reflexivity.
  pose proof (entry_points_panic_when_unreachable
                (ext := Offline.down) cc1 query newest 3 Offline.begin H1)
    as (Hnew & Hpages & Hfetch).
  split; [exact H1|]. split; [exact Hnew|]. split; [exact Hpages|].
  split; [exact H2|]. exact (Hfetch _ _ H2).
Defined.

Lemma UnmarshalJSON_quotes_witness :
  (forall s', "1700000000" <> String quote s')
  /\ (forall s', "1700000000" <> s' +++ String quote EmptyString)
  /\ UnmarshalJSON zeroTime
       (list_byte_of_string
          (string_of_list_ascii (repeat quote 1) +++ "1700000000"
           +++ string_of_list_ascii (repeat quote 1)))
     = (mkTime 1700000000 0, None).
Proof.
  assert (H1 : forall s', "1700000000" <> String quote s') by (intros s' H; discriminate H).
  assert (H2 : forall s', "1700000000" <> s' +++ String quote EmptyString).
  { intros s' H. apply ends_with_last in H. vm_compute in H. discriminate H. }
  split; [exact H1|]. split; [exact H2|].
  exact (UnmarshalJSON_quotes zeroTime "1700000000" 1 1 H1 H2).
Defined.

Example UnmarshalJSON_not_a_time :
  UnmarshalJSON (mkTime 42 0)
    (list_byte_of_string
       (string_of_list_ascii (repeat quote 1) +++ "soon"
        +++ string_of_list_ascii (repeat quote 1)))
  = (mkTime 42 0, Some "cannot parse as 2006").
Proof. reflexivity. Qed.

End CoverageRuns.

(** * Where the nil response of [Get] reaches the orchestrators *)

Section Departures.
Import Script ScriptCatalog.

(** C2. Two snapshots are selected and one page is asked of each.  The
    single attempt for the page of the first ends without a response:
    [FetchPages] sends no error, it panics in [Get], and the page of the
    second snapshot, which would arrive, is never requested. *)
Theorem FetchPages_stops_at_refused_page :
  filterIndices cc1 query_two = Ret ["CC-MAIN-2024-10"; "CC-MAIN-2023-50"]
  /\ FetchPages cc1 query_two (start refused_then_page)
     = (Panic nil_dereference,
        mkState [page_body 200 (ndjson [line_a])]
                [EvHttpGet "https://index.commoncrawl.org/CC-MAIN-2024-10-index?url=example.org/*&output=json&from=200&to=400" 5;
                 EvSleep 1]).
Proof. split; reflexivity. Qed.

(** C3. Two pages are counted and iterated.  The first arrives and its
    batch is sent; the attempt for the second ends without a response:
    nothing is sent on the results channel for it, neither a nil batch
    nor an error before it, and [FetchPages] panics in [Get]. *)
Theorem FetchPages_sends_nothing_for_refused_page :
  FetchPages cc1 query (start page_then_refused)
  = (Panic nil_dereference,
     mkState []
             [EvHttpGet "https://index.commoncrawl.org/CC-MAIN-2024-10-index?url=example.org/*&showNumPages=true" 5;
              EvHttpGet "https://index.commoncrawl.org/CC-MAIN-2024-10-index?url=example.org/*&output=json&page=0" 5;
              EvSendResults [record_a; record_b];
              EvHttpGet "https://index.commoncrawl.org/CC-MAIN-2024-10-index?url=example.org/*&output=json&page=1" 5;
              EvSleep 1])
  /\ sent_batches (trace (snd (FetchPages cc1 query (start page_then_refused))))
     = [[record_a; record_b]].
Proof. split; reflexivity. Qed.

(** C5. Two pages are counted.  The first arrives with two records; the
    attempt for the second ends without a response: [GetPagesIndex]
    returns neither an error nor the two records, it panics in [Get]. *)
Theorem GetPagesIndex_panics_at_refused_page :
  GetPagesIndex cc1 query newest (start page_then_refused)
  = (Panic nil_dereference,
     mkState []
             [EvHttpGet "https://index.commoncrawl.org/CC-MAIN-2024-10-index?url=example.org/*&showNumPages=true" 5;
              EvHttpGet "https://index.commoncrawl.org/CC-MAIN-2024-10-index?url=example.org/*&output=json&page=0" 5;
              EvHttpGet "https://index.commoncrawl.org/CC-MAIN-2024-10-index?url=example.org/*&output=json&page=1" 5;
              EvSleep 1]).
Proof. reflexivity. Qed.

(** C7, as stated, fails on an input whose malformed line has no newline
    after it: the last byte is cut off, what is left decodes, and
    [ParseResponse] returns a record and no error. *)
Lemma ParseResponse_accepts_unterminated_line :
  ~ malformed_line_reported cc1 unterminated.
Proof.
  intros H.
  specialize (H [] [] unterminated "unexpected end of input" eq_refl (Forall_nil _) eq_refl).
  vm_compute in H. discriminate H.
Qed.

(** When what is left still does not decode, the error holds the line
    without its last byte. *)
Example ParseResponse_reports_cut_line :
  input_lines (bytes "<html>") = [bytes "<html>"]
  /\ ParseResponse cc1 (bytes "<html>")
     = Ret ([], Some "[ParseResponse] Cannot decode JSON line: expect { or n. Response: <html").
Proof. split; reflexivity. Qed.

End Departures.
